(** * minievm JSON-RPC gateway: [jsonrpc/jsonrpc.go]

    A shallow embedding of [StartJSONRPC], [listen] and [ConnectCometWS],
    together with the lifecycle closure handed to the errgroup, and the
    properties of the gateway runtime checked against them.

    The Go code talks to libraries (cometbft's WS client, go-ethereum's
    rpc server, net, net/http, errgroup).  Every call that leaves the file
    is recorded as an [Event]; the answer of a call that can fail is taken
    from an [Env] of oracles that see the whole history so far, so the
    theorems hold whatever the outside world answers.

    What is taken from the libraries' contracts rather than from this
    file:
    - [rpcclient.NewWS] gives a client or an error, never both, and
      applies its options in order over its defaults;
    - the constructors of the backend and of the API services build
      values and do nothing else observable here;
    - [http.Server.Serve] closes its listener when it returns, also when
      it is called on a server already closed, in which case it accepts
      nothing; [http.Server.Close] closes at once every open connection
      and the listeners that [Serve] has been given, and no other;
    - a [select] takes one of the cases that can proceed, any of them when
      several can. *)

From Stdlib Require Import String List ZArith Lia Bool.
Import ListNotations.
Local Open Scope string_scope.
Local Open Scope Z_scope.

(** ** Go values *)

(** A non-nil Go [error]: its message.  [errors.New msg] builds one. *)
Inductive Err : Type :=
| errors_New (msg : string).

(** A Go value of type [error]; [None] is [nil]. *)
Definition error : Type := option Err.

(** A Go result pair [(T, error)] of a library constructor, which is either
    a usable value with a nil error or a nil value with an error. *)
Inductive Result (A : Type) : Type :=
| Ok (a : A)
| Fail (e : Err).
Arguments Ok {A} a.
Arguments Fail {A} e.

(** [time.Duration]: nanoseconds. *)
Definition Duration : Type := Z.
Definition time_Second : Duration := 1000000000.

(** ** Loggers *)

(** A [log.Logger] is identified by the key/value context attached with
    [With]. *)
Definition Logger : Type := list (string * string).
Definition Logger_With (lg : Logger) (k v : string) : Logger :=
  (lg ++ [(k, v)])%list.

Inductive Level : Type := Debug | Info | Error.

(** ** Process handles passed to [StartJSONRPC] *)

Inductive Context : Type := mkContext (id : nat).
Inductive Group : Type := mkGroup (id : nat).
Inductive MinitiaApp : Type := mkApp (id : nat).
Inductive ClientContext : Type := mkClientContext (id : nat).
Record ServerContext : Type := { svr_Logger : Logger }.

(** [config.JSONRPCConfig], the fields this file reads. *)
Record JSONRPCConfig : Type := {
  Address : string;
  EnableUnsafeCORS : bool;
  HTTPTimeout : Duration;
  HTTPIdleTimeout : Duration;
  MaxOpenConnections : Z
}.

(** ** The comet WS client *)

(** One logger call, as a value: the body of the [OnReconnect] closure. *)
Record LogCall : Type := {
  lc_logger : Logger;
  lc_level : Level;
  lc_msg : string;
  lc_address : string
}.

(** The functional options of [rpcclient.NewWS]. *)
Inductive WSOption : Type :=
| MaxReconnectAttempts (n : Z)
| ReadWait (d : Duration)
| WriteWait (d : Duration)
| PingPeriod (d : Duration)
| OnReconnect (cb : LogCall).

(** The reconnect policy held by a [WSClient]. *)
Record Policy : Type := {
  maxReconnectAttempts : Z;
  readWait : Duration;
  writeWait : Duration;
  pingPeriod : Duration;
  onReconnect : option LogCall
}.

Definition applyOption (p : Policy) (o : WSOption) : Policy :=
  match o with
  | MaxReconnectAttempts n =>
      {| maxReconnectAttempts := n; readWait := readWait p;
         writeWait := writeWait p; pingPeriod := pingPeriod p;
         onReconnect := onReconnect p |}
  | ReadWait d =>
      {| maxReconnectAttempts := maxReconnectAttempts p; readWait := d;
         writeWait := writeWait p; pingPeriod := pingPeriod p;
         onReconnect := onReconnect p |}
  | WriteWait d =>
      {| maxReconnectAttempts := maxReconnectAttempts p; readWait := readWait p;
         writeWait := d; pingPeriod := pingPeriod p;
         onReconnect := onReconnect p |}
  | PingPeriod d =>
      {| maxReconnectAttempts := maxReconnectAttempts p; readWait := readWait p;
         writeWait := writeWait p; pingPeriod := d;
         onReconnect := onReconnect p |}
  | OnReconnect cb =>
      {| maxReconnectAttempts := maxReconnectAttempts p; readWait := readWait p;
         writeWait := writeWait p; pingPeriod := pingPeriod p;
         onReconnect := Some cb |}
  end.

(** [NewWS] starts from the library's defaults and applies the options in
    order. *)
Definition applyOptions (defaults : Policy) (opts : list WSOption) : Policy :=
  fold_left applyOption opts defaults.

Record WSClient : Type := {
  ws_remote : string;
  ws_endpoint : string;
  ws_policy : Policy
}.

(** ** RPC services and the dispatcher *)

Record Backend : Type := {
  bk_app : MinitiaApp;
  bk_svrCtx : ServerContext;
  bk_clientCtx : ClientContext;
  bk_config : JSONRPCConfig
}.

Definition NewJSONRPCBackend (app : MinitiaApp) (svrCtx : ServerContext)
    (clientCtx : ClientContext) (cfg : JSONRPCConfig) : Backend :=
  {| bk_app := app; bk_svrCtx := svrCtx; bk_clientCtx := clientCtx;
     bk_config := cfg |}.

Inductive Service : Type :=
| NewEthAPI (lg : Logger) (bkd : Backend)
| NewFilterAPI (lg : Logger) (bkd : Backend) (clientCtx : ClientContext)
    (ws : WSClient)
| NewNetAPI (lg : Logger) (bkd : Backend).

(** [rpc.API]. *)
Record API : Type := {
  Namespace : string;
  Version : string;
  Svc : Service;
  Public : bool
}.

(** [rpc.Server]: the services registered so far, oldest first. *)
Record RPCServer : Type := { services : list (string * Service) }.
Definition rpc_NewServer : RPCServer := {| services := [] |}.

(** ** HTTP plumbing *)

Record Route : Type := {
  route_path : string;
  route_handler : RPCServer;
  route_methods : list string
}.

Inductive Cors : Type := cors_Default | cors_AllowAll.

Record Handler : Type := { h_cors : Cors; h_router : list Route }.

(** [http.Server]. *)
Record HTTPServer : Type := {
  Addr : string;
  SrvHandler : Handler;
  ReadHeaderTimeout : Duration;
  ReadTimeout : Duration;
  WriteTimeout : Duration;
  IdleTimeout : Duration
}.

(** What [net.Listen] hands back. *)
Record TCPListener : Type := { ln_network : string; ln_addr : string }.

(** A [net.Listener]: the raw one, or one wrapped by
    [netutil.LimitListener]. *)
Inductive Listener : Type :=
| RawListener (l : TCPListener)
| LimitListener (l : Listener) (n : Z).

(** The closure given to [g.Go], by the variables it captures. *)
Record Task : Type := {
  t_ctx : Context;
  t_httpSrv : HTTPServer;
  t_ln : Listener;
  t_svrLogger : Logger;
  t_logger : Logger;
  t_address : string
}.

(** ** Events *)

Inductive LogVal : Type :=
| LStr (s : string)
| LErr (e : error)
| LSvc (s : Service).

Inductive Event : Type :=
| EvNewWS (addr endpoint : string) (opts : list WSOption) (r : Result WSClient)
| EvOnStart (c : WSClient) (r : error)
| EvLog (lg : Logger) (lvl : Level) (msg : string) (kvs : list (string * LogVal))
| EvSetDefaultLogger (lg : Logger)
| EvRegisterName (ns : string) (svc : Service) (r : error)
| EvListen (network addr : string) (r : Result TCPListener)
| EvGo (g : Group) (t : Task)
| EvGoServe (t : Task)
| EvServeReturn (t : Task) (r : error)
| EvCancel (ctx : Context)
| EvHTTPClose (srv : HTTPServer) (r : error)
| EvTaskReturn (t : Task) (r : error).

Definition History : Type := list Event.

Definition isNewWS (e : Event) : bool :=
  match e with EvNewWS _ _ _ _ => true | _ => false end.
Definition isOnStart (e : Event) : bool :=
  match e with EvOnStart _ _ => true | _ => false end.
Definition isRegisterName (e : Event) : bool :=
  match e with EvRegisterName _ _ _ => true | _ => false end.
Definition isListen (e : Event) : bool :=
  match e with EvListen _ _ _ => true | _ => false end.
Definition isGo (e : Event) : bool :=
  match e with EvGo _ _ => true | _ => false end.
Definition isGoServe (e : Event) : bool :=
  match e with EvGoServe _ => true | _ => false end.
Definition isHTTPClose (e : Event) : bool :=
  match e with EvHTTPClose _ _ => true | _ => false end.

(** ** The outside world *)

(** The answers of the library calls that can fail.  Each oracle sees the
    history of events up to the call. *)
Record Env : Type := {
  ws_defaults : Policy;
  NewWS_err : History -> string -> string -> list WSOption -> error;
  OnStart_err : History -> WSClient -> error;
  RegisterName_err : History -> RPCServer -> string -> Service -> error;
  net_Listen : History -> string -> string -> Result TCPListener
}.

(** ** Computations

    [M A] reads the history before it and answers with a value and the
    events it emitted itself, in order. *)
Definition M (A : Type) : Type := History -> A * list Event.

Definition ret {A} (a : A) : M A := fun _ => (a, []).

Definition bind {A B} (m : M A) (f : A -> M B) : M B :=
  fun h =>
    let (a, es) := m h in
    let (b, es') := f a (h ++ es)%list in
    (b, (es ++ es')%list).

Definition emit (e : Event) : M unit := fun _ => (tt, [e]).

(** A call whose answer the world decides: ask, record, answer. *)
Definition call {A} (ask : History -> A) (record : A -> Event) : M A :=
  fun h => let a := ask h in (a, [record a]).

Declare Scope go_scope.
Delimit Scope go_scope with go.
Notation "x <- m ;; k" := (bind m (fun x => k))
  (at level 61, m at next level, right associativity) : go_scope.
Notation "m ;; k" := (bind m (fun _ => k))
  (at level 61, right associativity) : go_scope.
Local Open Scope go_scope.

Definition log (lg : Logger) (lvl : Level) (msg : string)
    (kvs : list (string * LogVal)) : M unit :=
  emit (EvLog lg lvl msg kvs).

(** ** The source, function by function *)

(** RPC namespaces and API version. *)
Definition EthNamespace : string := "eth".
Definition NetNamespace : string := "net".
Definition TxPoolNamespace : string := "txpool".
Definition Web3Namespace : string := "web3".
Definition PersonalNamespace : string := "personal".
Definition DebugNamespace : string := "debug".
Definition MinerNamespace : string := "miner".
Definition apiVersion : string := "1.0".

Section Program.

Variable env : Env.

(** [rpcclient.NewWS]: fails as the world says; otherwise the client holds
    the defaults overridden by the options. *)
Definition rpcclient_NewWS (addr endpoint : string) (opts : list WSOption)
    : M (Result WSClient) :=
  call (fun h =>
          match NewWS_err env h addr endpoint opts with
          | Some e => Fail e
          | None => Ok {| ws_remote := addr; ws_endpoint := endpoint;
                          ws_policy := applyOptions (ws_defaults env) opts |}
          end)
       (EvNewWS addr endpoint opts).

Definition WSClient_OnStart (c : WSClient) : M error :=
  call (fun h => OnStart_err env h c) (EvOnStart c).

(** [ConnectCometWS]; the result is the client pointer, [None] for nil. *)
Definition ConnectCometWS (cometRPCAddr cometWSEndpoint : string)
    (logger : Logger) : M (option WSClient) :=
  r <- rpcclient_NewWS cometRPCAddr cometWSEndpoint
         [ MaxReconnectAttempts 256;
           ReadWait 0;
           WriteWait 0;
           PingPeriod (50 * time_Second);
           OnReconnect {| lc_logger := logger; lc_level := Debug;
                          lc_msg := "EVM RPC reconnects to Comet WS";
                          lc_address := cometRPCAddr ++ cometWSEndpoint |} ] ;;
  match r with
  | Fail err =>
      log logger Error "Comet WS client could not be created"
        [("address", LStr (cometRPCAddr ++ cometWSEndpoint));
         ("error", LErr (Some err))] ;;
      ret None
  | Ok cometWSClient =>
      err <- WSClient_OnStart cometWSClient ;;
      match err with
      | Some e =>
          log logger Error "Comet WS client could not start"
            [("address", LStr (cometRPCAddr ++ cometWSEndpoint));
             ("error", LErr (Some e))] ;;
          ret (Some cometWSClient)
      | None => ret (Some cometWSClient)
      end
  end.

(** [net.Listen]. *)
Definition net_Listen_call (network addr : string) : M (Result TCPListener) :=
  call (fun h => net_Listen env h network addr) (EvListen network addr).

(** [listen]: a listener on the tcp network, limited when the config names
    a maximum of open connections. *)
Definition listen (addr : string) (jsonRPCConfig : JSONRPCConfig)
    : M (Result Listener) :=
  let addr := if String.eqb addr "" then ":http" else addr in
  r <- net_Listen_call "tcp" addr ;;
  match r with
  | Fail err => ret (Fail err)
  | Ok ln =>
      if 0 <? MaxOpenConnections jsonRPCConfig
      then ret (Ok (LimitListener (RawListener ln)
                      (MaxOpenConnections jsonRPCConfig)))
      else ret (Ok (RawListener ln))
  end.

(** [rpcServer.RegisterName]: on success the service is added. *)
Definition RegisterName (srv : RPCServer) (ns : string) (svc : Service)
    : M (RPCServer * error) :=
  err <- call (fun h => RegisterName_err env h srv ns svc)
              (EvRegisterName ns svc) ;;
  match err with
  | Some e => ret (srv, Some e)
  | None => ret ({| services := (services srv ++ [(ns, svc)])%list |}, None)
  end.

(** The [for _, api := range apis] loop of [StartJSONRPC]: [Fail err] when
    the body returns [err], else the server after the last entry. *)
Fixpoint registerAPIs (svrCtx : ServerContext) (rpcServer : RPCServer)
    (apis : list API) : M (Result RPCServer) :=
  match apis with
  | [] => ret (Ok rpcServer)
  | api :: rest =>
      r <- RegisterName rpcServer (Namespace api) (Svc api) ;;
      match r with
      | (_, Some err) =>
          log (svr_Logger svrCtx) Error
            "failed to register service in JSON RPC namespace"
            [("namespace", LStr (Namespace api)); ("service", LSvc (Svc api))] ;;
          ret (Fail err)
      | (rpcServer', None) => registerAPIs svrCtx rpcServer' rest
      end
  end.

Definition StartJSONRPC (ctx : Context) (g : Group) (app : MinitiaApp)
    (svrCtx : ServerContext) (clientCtx : ClientContext)
    (jsonRPCConfig : JSONRPCConfig) : M error :=
  cometWsClient <- ConnectCometWS "http://127.0.0.1:26657" "/websocket"
                     (svr_Logger svrCtx) ;;
  match cometWsClient with
  | None => ret (Some (errors_New "failed to connect comet Websocket Server"))
  | Some cometWsClient =>
      let logger := Logger_With (svr_Logger svrCtx) "module" "geth" in
      emit (EvSetDefaultLogger logger) ;;
      let rpcServer := rpc_NewServer in
      let bkd := NewJSONRPCBackend app svrCtx clientCtx jsonRPCConfig in
      let apis :=
        [ {| Namespace := EthNamespace; Version := apiVersion;
             Svc := NewEthAPI (svr_Logger svrCtx) bkd; Public := true |};
          {| Namespace := EthNamespace; Version := apiVersion;
             Svc := NewFilterAPI (svr_Logger svrCtx) bkd clientCtx cometWsClient;
             Public := true |};
          {| Namespace := NetNamespace; Version := apiVersion;
             Svc := NewNetAPI (svr_Logger svrCtx) bkd; Public := true |} ] in
      looped <- registerAPIs svrCtx rpcServer apis ;;
      match looped with
      | Fail err => ret (Some err)
      | Ok rpcServer =>
          let r := [ {| route_path := "/"; route_handler := rpcServer;
                        route_methods := ["POST"] |} ] in
          let handlerWithCors :=
            if EnableUnsafeCORS jsonRPCConfig then cors_AllowAll
            else cors_Default in
          let httpSrv :=
            {| Addr := Address jsonRPCConfig;
               SrvHandler := {| h_cors := handlerWithCors; h_router := r |};
               ReadHeaderTimeout := HTTPTimeout jsonRPCConfig;
               ReadTimeout := HTTPTimeout jsonRPCConfig;
               WriteTimeout := HTTPTimeout jsonRPCConfig;
               IdleTimeout := HTTPIdleTimeout jsonRPCConfig |} in
          lr <- listen (Addr httpSrv) jsonRPCConfig ;;
          match lr with
          | Fail err => ret (Some err)
          | Ok ln =>
              emit (EvGo g {| t_ctx := ctx; t_httpSrv := httpSrv; t_ln := ln;
                              t_svrLogger := svr_Logger svrCtx;
                              t_logger := logger;
                              t_address := Address jsonRPCConfig |}) ;;
              ret None
          end
      end
  end.

End Program.

(** ** The lifecycle closure given to [g.Go]

    The closure starts a goroutine that runs [httpSrv.Serve(ln)] and sends
    its result on [errCh], then waits in one [select] for either
    [ctx.Done()] or a value on [errCh].  Two goroutines and the parent's
    cancellation interleave, so the closure is a labelled transition
    system; [step] is its transition function. *)

(** The goroutine of [go func() { ... errCh <- httpSrv.Serve(ln) }()]:
    not spawned; spawned, [Serve] not yet given the listener; inside
    [Serve], which holds the listener; [Serve] returned [e], blocked in
    the send; value handed over. *)
Inductive ServeG : Type :=
| SgNotStarted
| SgStarted
| SgServing
| SgSending (e : error)
| SgExited.

(** The closure itself. *)
Inductive TaskPc : Type :=
| TkEntry
| TkSelect
| TkReturned (r : error).

(** A connection accepted by the HTTP server. *)
Definition Conn : Type := nat.

Record Run : Type := {
  r_ctxDone : bool;
  r_serve : ServeG;
  r_task : TaskPc;
  r_lnOpen : bool;
  r_inflight : list Conn;
  r_finished : list Conn;
  r_dropped : list Conn;
  r_events : list Event
}.

Definition init : Run :=
  {| r_ctxDone := false; r_serve := SgNotStarted; r_task := TkEntry;
     r_lnOpen := true; r_inflight := []; r_finished := []; r_dropped := [];
     r_events := [] |}.

Inductive Label : Type :=
| LGo
| LServeStart
| LAccept (c : Conn)
| LFinish (c : Conn)
| LServeReturn (e : error)
| LCancel
| LSelectDone (c : error)
| LSelectErr.

Definition isServeReturn (l : Label) : bool :=
  match l with LServeReturn _ => true | _ => false end.
Definition isCancel (l : Label) : bool :=
  match l with LCancel => true | _ => false end.

Definition set_task (r : Run) (pc : TaskPc) : Run :=
  {| r_ctxDone := r_ctxDone r; r_serve := r_serve r; r_task := pc;
     r_lnOpen := r_lnOpen r; r_inflight := r_inflight r;
     r_finished := r_finished r; r_dropped := r_dropped r;
     r_events := r_events r |}.

Definition set_serve (r : Run) (sg : ServeG) : Run :=
  {| r_ctxDone := r_ctxDone r; r_serve := sg; r_task := r_task r;
     r_lnOpen := r_lnOpen r; r_inflight := r_inflight r;
     r_finished := r_finished r; r_dropped := r_dropped r;
     r_events := r_events r |}.

Definition add_events (r : Run) (es : list Event) : Run :=
  {| r_ctxDone := r_ctxDone r; r_serve := r_serve r; r_task := r_task r;
     r_lnOpen := r_lnOpen r; r_inflight := r_inflight r;
     r_finished := r_finished r; r_dropped := r_dropped r;
     r_events := (r_events r ++ es)%list |}.

Definition set_conns (r : Run) (lnOpen : bool) (inflight finished dropped : list Conn)
    : Run :=
  {| r_ctxDone := r_ctxDone r; r_serve := r_serve r; r_task := r_task r;
     r_lnOpen := lnOpen; r_inflight := inflight;
     r_finished := finished; r_dropped := dropped;
     r_events := r_events r |}.

Definition set_ctxDone (r : Run) : Run :=
  {| r_ctxDone := true; r_serve := r_serve r; r_task := r_task r;
     r_lnOpen := r_lnOpen r; r_inflight := r_inflight r;
     r_finished := r_finished r; r_dropped := r_dropped r;
     r_events := r_events r |}.

Definition remove_conn (c : Conn) (l : list Conn) : list Conn :=
  filter (fun x => negb (Nat.eqb x c)) l.

(** [httpSrv.Close()] has been called on the server. *)
Definition srvClosed (r : Run) : bool := existsb isHTTPClose (r_events r).

(** [httpSrv.Close()] as net/http documents it: "Close immediately closes
    all active net.Listeners and any connections in state StateNew,
    StateActive, or StateIdle."  Every open connection is dropped, a
    request in flight on it included.  The listeners it closes are those
    [Serve] holds: [ln] is closed when the goroutine is inside [Serve],
    and left as it is when [Serve] has not been called yet. *)
Definition http_Close (r : Run) : Run :=
  set_conns r
    (match r_serve r with SgServing => false | _ => r_lnOpen r end)
    [] (r_finished r) (r_dropped r ++ r_inflight r)%list.

Section Lifecycle.

Variable t : Task.

Definition step (r : Run) (l : Label) : option Run :=
  match l with
  | LGo =>
      (* errCh := make(chan error); go func() { ... }() *)
      match r_task r with
      | TkEntry =>
          Some (add_events (set_serve (set_task r TkSelect) SgStarted)
                  [EvGoServe t])
      | _ => None
      end
  | LServeStart =>
      (* svrCtx.Logger.Info("Starting JSON-RPC server", ...); Serve begins.
         On a server already closed, Serve closes ln and accepts nothing. *)
      match r_serve r with
      | SgStarted =>
          Some (add_events
                  (set_conns (set_serve r SgServing)
                     (if srvClosed r then false else r_lnOpen r)
                     (r_inflight r) (r_finished r) (r_dropped r))
                  [EvLog (t_svrLogger t) Info "Starting JSON-RPC server"
                     [("address", LStr (t_address t))]])
      | _ => None
      end
  | LAccept c =>
      match r_serve r with
      | SgServing =>
          if r_lnOpen r
          then Some (set_conns r true (r_inflight r ++ [c])%list
                       (r_finished r) (r_dropped r))
          else None
      | _ => None
      end
  | LFinish c =>
      if existsb (Nat.eqb c) (r_inflight r)
      then Some (set_conns r (r_lnOpen r) (remove_conn c (r_inflight r))
                   (r_finished r ++ [c])%list (r_dropped r))
      else None
  | LServeReturn e =>
      (* httpSrv.Serve(ln) returns e, its listener closed; the goroutine
         blocks in errCh <- e *)
      match r_serve r with
      | SgServing =>
          Some (add_events
                  (set_conns (set_serve r (SgSending e)) false (r_inflight r)
                     (r_finished r) (r_dropped r))
                  [EvServeReturn t e])
      | _ => None
      end
  | LCancel =>
      if r_ctxDone r then None
      else Some (add_events (set_ctxDone r) [EvCancel (t_ctx t)])
  | LSelectDone c =>
      (* case <-ctx.Done(): logger.Info(...); return httpSrv.Close() *)
      match r_task r with
      | TkSelect =>
          if r_ctxDone r
          then Some (add_events (set_task (http_Close r) (TkReturned c))
                       [EvLog (t_logger t) Info
                          "stopping Ethereum JSONRPC server..."
                          [("address", LStr (t_address t))];
                        EvHTTPClose (t_httpSrv t) c;
                        EvTaskReturn t c])
          else None
      | _ => None
      end
  | LSelectErr =>
      (* case err := <-errCh: logger.Error(...); return err *)
      match r_task r, r_serve r with
      | TkSelect, SgSending e =>
          Some (add_events (set_serve (set_task r (TkReturned e)) SgExited)
                  [EvLog (t_logger t) Error
                     "failed to start Ethereum JSONRPC server"
                     [("err", LErr e)];
                   EvTaskReturn t e])
      | _, _ => None
      end
  end.

(** A run: the labels taken from a state, in order. *)
Fixpoint exec (r : Run) (ls : list Label) : option Run :=
  match ls with
  | [] => Some r
  | l :: ls' =>
      match step r l with
      | Some r' => exec r' ls'
      | None => None
      end
  end.

End Lifecycle.

(** ** Observations on event lists *)

(** A library call that reported a failure. *)
Definition failed (e : Event) : bool :=
  match e with
  | EvNewWS _ _ _ (Fail _) => true
  | EvOnStart _ (Some _) => true
  | EvRegisterName _ _ (Some _) => true
  | EvListen _ _ (Fail _) => true
  | _ => false
  end.

(** No event of a list satisfies [p]. *)
Definition none (p : Event -> bool) (es : list Event) : bool :=
  forallb (fun e => negb (p e)) es.

(** The outcomes of [httpSrv.Close()] calls, of serve-loop returns and of
    closure returns among the events, oldest first. *)
Definition closes (es : list Event) : list error :=
  flat_map (fun e => match e with EvHTTPClose _ r => [r] | _ => [] end) es.
Definition returns (es : list Event) : list error :=
  flat_map (fun e => match e with EvTaskReturn _ r => [r] | _ => [] end) es.

(** The errors the serve goroutine reported along a run. *)
Definition reported (ls : list Label) : list error :=
  flat_map (fun l => match l with LServeReturn e => [e] | _ => [] end) ls.

(** The dispatcher an HTTP server routes [POST /] to. *)
Definition dispatchers (srv : HTTPServer) : list RPCServer :=
  map route_handler (h_router (SrvHandler srv)).

(** The policy a list of [NewWS] options fixes, whatever the defaults. *)
Definition fixes (opts : list WSOption) (attempts : Z) (rd wr ping : Duration)
    : Prop :=
  forall d : Policy,
    maxReconnectAttempts (applyOptions d opts) = attempts /\
    readWait (applyOptions d opts) = rd /\
    writeWait (applyOptions d opts) = wr /\
    pingPeriod (applyOptions d opts) = ping.

(** An event of the preparation: the client built, its start (failed or
    not), a log line, the default logger set, a service registered.  It
    neither binds nor launches anything, and is no failed construction or
    registration. *)
Definition quiet (e : Event) : bool :=
  match e with
  | EvNewWS _ _ _ (Ok _) | EvOnStart _ _ | EvLog _ _ _ _
  | EvSetDefaultLogger _ | EvRegisterName _ _ None => true
  | _ => false
  end.

(** The line [StartJSONRPC] logs when a registration fails. *)
Definition registerLog (svrCtx : ServerContext) (ns : string) (svc : Service)
    : Event :=
  EvLog (svr_Logger svrCtx) Error
    "failed to register service in JSON RPC namespace"
    [("namespace", LStr ns); ("service", LSvc svc)].

(** The services [StartJSONRPC] registers, in order. *)
Definition registered (app : MinitiaApp) (svrCtx : ServerContext)
    (clientCtx : ClientContext) (cfg : JSONRPCConfig) (ws : WSClient)
    : list (string * Service) :=
  let bkd := NewJSONRPCBackend app svrCtx clientCtx cfg in
  [ (EthNamespace, NewEthAPI (svr_Logger svrCtx) bkd);
    (EthNamespace, NewFilterAPI (svr_Logger svrCtx) bkd clientCtx ws);
    (NetNamespace, NewNetAPI (svr_Logger svrCtx) bkd) ].

(** The [http.Server] [StartJSONRPC] builds around a dispatcher: the
    config's address and timeouts, the CORS mode the config asks for, and
    one route, [POST /], to the dispatcher. *)
Definition gatewayServer (cfg : JSONRPCConfig) (rpcServer : RPCServer)
    : HTTPServer :=
  {| Addr := Address cfg;
     SrvHandler :=
       {| h_cors := if EnableUnsafeCORS cfg then cors_AllowAll else cors_Default;
          h_router := [ {| route_path := "/"; route_handler := rpcServer;
                           route_methods := ["POST"] |} ] |};
     ReadHeaderTimeout := HTTPTimeout cfg;
     ReadTimeout := HTTPTimeout cfg;
     WriteTimeout := HTTPTimeout cfg;
     IdleTimeout := HTTPIdleTimeout cfg |}.

(** The four ways [StartJSONRPC] can end, by the client [ConnectCometWS]
    gave, the result and the events emitted. *)
Inductive Outcome (ctx : Context) (g : Group) (app : MinitiaApp)
    (svrCtx : ServerContext) (clientCtx : ClientContext) (cfg : JSONRPCConfig)
    : option WSClient -> error -> list Event -> Prop :=
| NoClient a ep opts e lg lvl msg kvs :
    Outcome ctx g app svrCtx clientCtx cfg None
      (Some (errors_New "failed to connect comet Websocket Server"))
      [EvNewWS a ep opts (Fail e); EvLog lg lvl msg kvs]
| NotRegistered ws pre ns svc e :
    forallb quiet pre = true ->
    Outcome ctx g app svrCtx clientCtx cfg (Some ws) (Some e)
      (pre ++ [EvRegisterName ns svc (Some e); registerLog svrCtx ns svc])
| NotBound ws pre network addr e :
    forallb quiet pre = true ->
    Outcome ctx g app svrCtx clientCtx cfg (Some ws) (Some e)
      (pre ++ [EvListen network addr (Fail e)])
| Started ws pre network addr ln t :
    forallb quiet pre = true ->
    t_ctx t = ctx ->
    t_httpSrv t =
      gatewayServer cfg {| services := registered app svrCtx clientCtx cfg ws |} ->
    t_ln t =
      (if 0 <? MaxOpenConnections cfg
       then LimitListener (RawListener ln) (MaxOpenConnections cfg)
       else RawListener ln) ->
    Outcome ctx g app svrCtx clientCtx cfg (Some ws) None
      (pre ++ [EvListen network addr (Ok ln); EvGo g t]).

(** What holds of every state [r] of the lifecycle closure reached from
    [init] along [ls]. *)
Definition Inv (ls : list Label) (r : Run) : Prop :=
  r_ctxDone r = existsb isCancel ls /\
  match r_task r, r_serve r with
  | TkEntry, SgNotStarted =>
      reported ls = [] /\ closes (r_events r) = [] /\ returns (r_events r) = []
  | TkSelect, SgStarted | TkSelect, SgServing =>
      reported ls = [] /\ closes (r_events r) = [] /\ returns (r_events r) = []
  | TkSelect, SgSending e =>
      reported ls = [e] /\ closes (r_events r) = [] /\
      returns (r_events r) = [] /\ r_lnOpen r = false
  | TkReturned out, SgStarted =>
      reported ls = [] /\ closes (r_events r) = [out] /\
      returns (r_events r) = [out] /\
      r_ctxDone r = true /\ r_inflight r = []
  | TkReturned out, SgServing =>
      reported ls = [] /\ closes (r_events r) = [out] /\
      returns (r_events r) = [out] /\
      r_ctxDone r = true /\ r_lnOpen r = false /\ r_inflight r = []
  | TkReturned out, SgSending e =>
      reported ls = [e] /\ closes (r_events r) = [out] /\
      returns (r_events r) = [out] /\
      r_ctxDone r = true /\ r_lnOpen r = false /\ r_inflight r = []
  | TkReturned out, SgExited =>
      reported ls = [out] /\ closes (r_events r) = [] /\
      returns (r_events r) = [out]
  | _, _ => False
  end.

(** The spec's graceful close, from its words: the server stops accepting
    new connections, and every request in flight is allowed to finish, so
    none is dropped. *)
Definition graceful_close (before after : Run) : Prop :=
  r_lnOpen after = false /\
  forall c, In c (r_inflight before) -> ~ In c (r_dropped after).

(** ** Further observations *)

(** The calls among the events, by kind, oldest first: [OnStart] with its
    client and answer, the default loggers set, [RegisterName] with its
    namespace, service and answer, [net.Listen] with its network, address
    and answer, [g.Go] with its closure, and the serve goroutines
    started. *)
Definition starts (es : list Event) : list (WSClient * error) :=
  flat_map (fun e => match e with EvOnStart c r => [(c, r)] | _ => [] end) es.
Definition defaultLoggers (es : list Event) : list Logger :=
  flat_map (fun e => match e with EvSetDefaultLogger lg => [lg] | _ => [] end) es.
Definition registrations (es : list Event) : list (string * Service * error) :=
  flat_map (fun e => match e with
                     | EvRegisterName ns svc r => [(ns, svc, r)]
                     | _ => []
                     end) es.
Definition binds (es : list Event) : list (string * string * Result TCPListener) :=
  flat_map (fun e => match e with
                     | EvListen network addr r => [(network, addr, r)]
                     | _ => []
                     end) es.
Definition launches (es : list Event) : list (Group * Task) :=
  flat_map (fun e => match e with EvGo g t => [(g, t)] | _ => [] end) es.
Definition goServes (es : list Event) : list Task :=
  flat_map (fun e => match e with EvGoServe t => [t] | _ => [] end) es.

Definition Level_eqb (a b : Level) : bool :=
  match a, b with
  | Debug, Debug | Info, Info | Error, Error => true
  | _, _ => false
  end.

(** The log lines of a level and message among the events: who logged,
    and the key/value pairs. *)
Definition logged (lvl : Level) (msg : string) (es : list Event)
    : list (Logger * list (string * LogVal)) :=
  flat_map (fun e => match e with
                     | EvLog lg l m kvs =>
                         if Level_eqb l lvl && String.eqb m msg
                         then [(lg, kvs)] else []
                     | _ => []
                     end) es.

(** A registration that succeeded, and one that failed with [e]. *)
Definition succeeded (p : string * Service) : string * Service * error :=
  (p, None).
Definition refused (e : Err) (p : string * Service) : string * Service * error :=
  (p, Some e).

(** The address [listen] binds for a configured address. *)
Definition boundAddr (addr : string) : string :=
  if String.eqb addr "" then ":http" else addr.

(** The listener [listen] hands back around a bound [ln]. *)
Definition served (cfg : JSONRPCConfig) (ln : TCPListener) : Listener :=
  if 0 <? MaxOpenConnections cfg
  then LimitListener (RawListener ln) (MaxOpenConnections cfg)
  else RawListener ln.

(** What the events of a closure's run record, whatever the run: the serve
    goroutine is started once, on leaving the entry; "Starting JSON-RPC
    server" is logged once, when serving begins; each close is announced
    by one "stopping" line, and a return through [errCh] by one "failed to
    start" line carrying the error; the listener is open until [Serve]
    is given it, is closed once the serve loop has returned, and, once
    the closure has returned, is closed from the moment [Serve] has been
    given it. *)
Definition Recorded (t : Task) (r : Run) : Prop :=
  goServes (r_events r) =
    match r_task r with TkEntry => [] | _ => [t] end /\
  logged Info "Starting JSON-RPC server" (r_events r) =
    match r_serve r with
    | SgNotStarted | SgStarted => []
    | _ => [(t_svrLogger t, [("address", LStr (t_address t))])]
    end /\
  logged Info "stopping Ethereum JSONRPC server..." (r_events r) =
    map (fun _ => (t_logger t, [("address", LStr (t_address t))]))
      (closes (r_events r)) /\
  logged Error "failed to start Ethereum JSONRPC server" (r_events r) =
    match r_serve r with
    | SgExited =>
        map (fun out => (t_logger t, [("err", LErr out)])) (returns (r_events r))
    | _ => []
    end /\
  match r_serve r with
  | SgNotStarted | SgStarted => r_lnOpen r = true
  | SgServing => True
  | SgSending _ | SgExited => r_lnOpen r = false
  end /\
  match r_task r, r_serve r with
  | TkReturned _, SgServing => r_lnOpen r = false
  | _, _ => True
  end.

(** ** Proof steps *)

Ltac unfold_start :=
  unfold StartJSONRPC, ConnectCometWS, listen, registerAPIs, RegisterName,
    rpcclient_NewWS, WSClient_OnStart, net_Listen_call, call, bind, ret,
    emit, log; cbn.

(** Case analysis on every answer of the world, in call order. *)
Ltac oracle_cases :=
  repeat match goal with
  | |- context [match NewWS_err ?e ?h ?a ?b ?c with _ => _ end] =>
      destruct (NewWS_err e h a b c) eqn:?; cbn
  | |- context [match OnStart_err ?e ?h ?c with _ => _ end] =>
      destruct (OnStart_err e h c) eqn:?; cbn
  | |- context [match RegisterName_err ?e ?h ?s ?n ?v with _ => _ end] =>
      destruct (RegisterName_err e h s n v) eqn:?; cbn
  | |- context [match net_Listen ?e ?h ?n ?a with _ => _ end] =>
      destruct (net_Listen e h n a) eqn:?; cbn
  | |- context [if 0 <? ?n then _ else _] =>
      destruct (0 <? n) eqn:?; cbn
  end.

(** Write the event list of an [Outcome] goal as all but its last [k]
    events, followed by those. *)
Ltac split_tail k :=
  match goal with
  | |- Outcome _ _ _ _ _ _ _ _ ?evs =>
      let n := eval cbv in (length evs - k)%nat in
      let pre := eval cbv [firstn] in (firstn n evs) in
      let suf := eval cbv [skipn] in (skipn n evs) in
      change evs with (pre ++ suf)%list
  end.

(** Membership in [pre ++ tail] for a quiet [pre]: the quiet part cannot
    hold a bind, a launch or a failed registration, the tail is explicit. *)
Ltac in_tail H :=
  apply in_app_or in H;
  destruct H as [H|H];
  [ match goal with
    | Hq : forallb quiet _ = true |- _ =>
        apply (proj1 (forallb_forall quiet _) Hq) in H; try discriminate H
    end
  | repeat (destruct H as [H|H]; [try discriminate H|]); try contradiction ].

(** Split on the four outcomes, given the proof [O] that one holds. *)
Ltac by_outcome O :=
  lazymatch type of O with
  | Outcome _ _ _ _ _ _ ?c ?r ?e =>
      generalize O; generalize c; generalize r; generalize e;
      let evs := fresh "evs" in
      let res := fresh "res" in
      let conn := fresh "conn" in
      let HO := fresh "HO" in
      intros evs res conn HO;
      destruct HO as [ a0 ep0 opts0 e0 lg0 lvl0 msg0 kvs0
                     | ws0 pre0 ns0 svc0 e0 Hq
                     | ws0 pre0 network0 addr0 e0 Hq
                     | ws0 pre0 network0 addr0 ln0 t0 Hq Hctx Hsrv Hln ]
  end.

(** ** Sample worlds *)

Module Sample.

Definition policy0 : Policy :=
  {| maxReconnectAttempts := 25; readWait := 0; writeWait := 0;
     pingPeriod := 0; onReconnect := None |}.

Definition bind_ok (_ : History) (network addr : string) : Result TCPListener :=
  Ok {| ln_network := network; ln_addr := addr |}.

(** Everything succeeds. *)
Definition env_ok : Env :=
  {| ws_defaults := policy0;
     NewWS_err := fun _ _ _ _ => None;
     OnStart_err := fun _ _ => None;
     RegisterName_err := fun _ _ _ _ => None;
     net_Listen := bind_ok |}.

(** The endpoint does not parse: [NewWS] fails. *)
Definition env_bad_endpoint : Env :=
  {| ws_defaults := policy0;
     NewWS_err := fun _ _ _ _ => Some (errors_New "invalid endpoint");
     OnStart_err := fun _ _ => None;
     RegisterName_err := fun _ _ _ _ => None;
     net_Listen := bind_ok |}.

(** Nothing listens on 127.0.0.1:26657: the client is built, its dial in
    [OnStart] is refused. *)
Definition env_comet_down : Env :=
  {| ws_defaults := policy0;
     NewWS_err := fun _ _ _ _ => None;
     OnStart_err := fun _ _ => Some (errors_New "connection refused");
     RegisterName_err := fun _ _ _ _ => None;
     net_Listen := bind_ok |}.

(** The second registration (the filter API) is refused. *)
Definition env_bad_service : Env :=
  {| ws_defaults := policy0;
     NewWS_err := fun _ _ _ _ => None;
     OnStart_err := fun _ _ => None;
     RegisterName_err := fun _ srv _ _ =>
       match services srv with
       | [_] => Some (errors_New "no suitable methods")
       | _ => None
       end;
     net_Listen := bind_ok |}.

(** The port is taken. *)
Definition env_port_taken : Env :=
  {| ws_defaults := policy0;
     NewWS_err := fun _ _ _ _ => None;
     OnStart_err := fun _ _ => None;
     RegisterName_err := fun _ _ _ _ => None;
     net_Listen := fun _ _ _ => Fail (errors_New "address already in use") |}.

Definition ctx0 : Context := mkContext 0.
Definition g0 : Group := mkGroup 0.
Definition app0 : MinitiaApp := mkApp 0.
Definition clientCtx0 : ClientContext := mkClientContext 0.
Definition svrCtx0 : ServerContext := {| svr_Logger := [] |}.

Definition cfg0 : JSONRPCConfig :=
  {| Address := "127.0.0.1:8545"; EnableUnsafeCORS := false;
     HTTPTimeout := 10 * time_Second; HTTPIdleTimeout := 120 * time_Second;
     MaxOpenConnections := 100 |}.

Definition cfg_unlimited : JSONRPCConfig :=
  {| Address := ""; EnableUnsafeCORS := true;
     HTTPTimeout := 10 * time_Second; HTTPIdleTimeout := 120 * time_Second;
     MaxOpenConnections := 0 |}.

(** [StartJSONRPC] on the sample handles. *)
Definition start (env : Env) (cfg : JSONRPCConfig) (h : History)
    : error * list Event :=
  StartJSONRPC env ctx0 g0 app0 svrCtx0 clientCtx0 cfg h.

(** The closure submitted by [start env_ok cfg0] on an empty history. *)
Definition task0 : Task :=
  match last (snd (start env_ok cfg0 [])) (EvCancel ctx0) with
  | EvGo _ t => t
  | _ => {| t_ctx := ctx0;
            t_httpSrv := {| Addr := ""; SrvHandler := {| h_cors := cors_Default;
                                                         h_router := [] |};
                            ReadHeaderTimeout := 0; ReadTimeout := 0;
                            WriteTimeout := 0; IdleTimeout := 0 |};
            t_ln := RawListener {| ln_network := ""; ln_addr := "" |};
            t_svrLogger := []; t_logger := []; t_address := "" |}
  end.

(** The closure's run up to a cancelled context, with request 7 in
    flight. *)
Definition labels_cancelled : list Label := [LGo; LServeStart; LAccept 7%nat; LCancel].
Definition run_cancelled : Run :=
  match exec task0 init labels_cancelled with Some r => r | None => init end.

(** The closure's run to a stop on cancellation, and to a serve failure. *)
Definition labels_stopped : list Label :=
  [LGo; LServeStart; LCancel; LSelectDone None].
Definition run_stopped : Run :=
  match exec task0 init labels_stopped with Some r => r | None => init end.

Definition labels_failed : list Label :=
  [LGo; LServeStart; LServeReturn (Some (errors_New "accept: closed"))].
Definition run_failed : Run :=
  match exec task0 init labels_failed with Some r => r | None => init end.
Definition run_failed_returned : Run :=
  match step task0 run_failed LSelectErr with Some r => r | None => init end.

(** The closure's run when the cancellation wins before the serve
    goroutine has called [Serve]. *)
Definition labels_unserved : list Label := [LCancel; LGo; LSelectDone None].
Definition run_unserved : Run :=
  match exec task0 init labels_unserved with Some r => r | None => init end.

(** The history a second [StartJSONRPC] sees after the first server
    stopped, or failed. *)
Definition history_after_stop : History :=
  (snd (start env_ok cfg0 []) ++ r_events run_stopped)%list.
Definition history_after_failure : History :=
  (snd (start env_ok cfg0 []) ++ r_events run_failed_returned)%list.

End Sample.

(** ** Runs on the sample worlds *)

Example start_ok_returns_nil :
  fst (Sample.start Sample.env_ok Sample.cfg0 []) = None.
Proof. reflexivity. Qed.

Example start_bad_endpoint :
  Sample.start Sample.env_bad_endpoint Sample.cfg0 [] =
  (Some (errors_New "failed to connect comet Websocket Server"),
   [ EvNewWS "http://127.0.0.1:26657" "/websocket"
       [ MaxReconnectAttempts 256; ReadWait 0; WriteWait 0;
         PingPeriod 50000000000;
         OnReconnect {| lc_logger := []; lc_level := Debug;
                        lc_msg := "EVM RPC reconnects to Comet WS";
                        lc_address := "http://127.0.0.1:26657/websocket" |} ]
       (Fail (errors_New "invalid endpoint"));
     EvLog [] Error "Comet WS client could not be created"
       [("address", LStr "http://127.0.0.1:26657/websocket");
        ("error", LErr (Some (errors_New "invalid endpoint")))] ]).
Proof. reflexivity. Qed.

Example start_port_taken :
  fst (Sample.start Sample.env_port_taken Sample.cfg0 []) =
  Some (errors_New "address already in use").
Proof. reflexivity. Qed.

Example start_bad_service :
  fst (Sample.start Sample.env_bad_service Sample.cfg0 []) =
  Some (errors_New "no suitable methods").
Proof. reflexivity. Qed.

Example task0_listener :
  t_ln Sample.task0 =
  LimitListener (RawListener {| ln_network := "tcp"; ln_addr := "127.0.0.1:8545" |})
    100.
Proof. reflexivity. Qed.

Example run_stop :
  option_map r_task
    (exec Sample.task0 init [LGo; LServeStart; LCancel; LSelectDone None]) =
  Some (TkReturned None).
Proof. reflexivity. Qed.

Example run_serve_fails :
  option_map r_task
    (exec Sample.task0 init
       [LGo; LServeStart; LServeReturn (Some (errors_New "accept: closed"));
        LSelectErr]) =
  Some (TkReturned (Some (errors_New "accept: closed"))).
Proof. reflexivity. Qed.

(** With the context cancelled and a serve error waiting on [errCh], both
    cases of the select can proceed. *)
Example select_with_both_ready :
  option_map r_task
    (exec Sample.task0 init
       [LGo; LServeStart; LCancel; LServeReturn None; LSelectErr]) =
  Some (TkReturned None) /\
  option_map r_task
    (exec Sample.task0 init
       [LGo; LServeStart; LCancel; LServeReturn None;
        LSelectDone (Some (errors_New "close tcp"))]) =
  Some (TkReturned (Some (errors_New "close tcp"))).
Proof. split; reflexivity. Qed.

(** The select cannot take the [errCh] case before the serve goroutine has
    a value to send. *)
Example run_no_early_error :
  exec Sample.task0 init [LGo; LServeStart; LSelectErr] = None.
Proof. reflexivity. Qed.

(** ** Lists of events *)

Lemma none_app p xs ys : none p (xs ++ ys) = none p xs && none p ys.
Proof. apply forallb_app. Qed.

Lemma quiet_in pre e : forallb quiet pre = true -> In e pre -> quiet e = true.
Proof. intros H. now apply forallb_forall. Qed.

Lemma quiet_none (p : Event -> bool) pre :
  (forall e, p e = true -> quiet e = false) ->
  forallb quiet pre = true -> none p pre = true.
Proof.
  intros Hp H. apply forallb_forall. intros e He.
  pose proof (quiet_in _ _ H He) as Hq.
  destruct (p e) eqn:E; [|reflexivity].
  rewrite (Hp _ E) in Hq. discriminate.
Qed.

Lemma quiet_no_go pre : forallb quiet pre = true -> none isGo pre = true.
Proof. apply quiet_none. destruct e; try discriminate; reflexivity. Qed.

Lemma quiet_no_goServe pre :
  forallb quiet pre = true -> none isGoServe pre = true.
Proof. apply quiet_none. destruct e; try discriminate; reflexivity. Qed.

Lemma quiet_no_listen pre :
  forallb quiet pre = true -> none isListen pre = true.
Proof. apply quiet_none. destruct e; try discriminate; reflexivity. Qed.

Lemma quiet_returns pre : forallb quiet pre = true -> returns pre = [].
Proof.
  induction pre as [|e pre IH]; [reflexivity|].
  cbn [forallb]. intros H. apply andb_prop in H. destruct H as [He Hpre].
  destruct e; try discriminate He; exact (IH Hpre).
Qed.

Create Rewrite HintDb quiet.
#[local] Hint Rewrite none_app : quiet.
#[local] Hint Rewrite quiet_no_go quiet_no_goServe quiet_no_listen
  using assumption : quiet.

(** ** [listen] *)

Lemma listen_events env addr cfg h :
  snd (listen env addr cfg h) =
  [EvListen "tcp" (if String.eqb addr "" then ":http" else addr)
     (net_Listen env h "tcp" (if String.eqb addr "" then ":http" else addr))].
Proof.
  unfold listen, net_Listen_call, call, bind, ret.
  destruct (net_Listen env h "tcp" _); [destruct (0 <? _)|]; reflexivity.
Qed.

Lemma listen_fail env addr cfg h e :
  net_Listen env h "tcp" (if String.eqb addr "" then ":http" else addr) = Fail e ->
  fst (listen env addr cfg h) = Fail e.
Proof.
  intros H. unfold listen, net_Listen_call, call, bind, ret.
  rewrite H. reflexivity.
Qed.

Lemma listen_ok env addr cfg h ln :
  net_Listen env h "tcp" (if String.eqb addr "" then ":http" else addr) = Ok ln ->
  fst (listen env addr cfg h) =
  if 0 <? MaxOpenConnections cfg
  then Ok (LimitListener (RawListener ln) (MaxOpenConnections cfg))
  else Ok (RawListener ln).
Proof.
  intros H. unfold listen, net_Listen_call, call, bind, ret.
  rewrite H. destruct (0 <? _); reflexivity.
Qed.

(** C8.  For every address and config, [listen] binds once, on the tcp
    network, at ":http" when the address is empty and at the address
    otherwise; when [net.Listen] fails it returns that error and nothing
    else happens; when it succeeds the listener is wrapped by
    [LimitListener] exactly when [MaxOpenConnections > 0], and is the raw
    listener when [MaxOpenConnections = 0]. *)
Theorem listen_contract env addr cfg h :
  exists a,
    (addr = "" -> a = ":http") /\
    (addr <> "" -> a = addr) /\
    snd (listen env addr cfg h) = [EvListen "tcp" a (net_Listen env h "tcp" a)] /\
    (forall e,
       net_Listen env h "tcp" a = Fail e ->
       listen env addr cfg h = (Fail e, [EvListen "tcp" a (Fail e)])) /\
    (forall ln,
       net_Listen env h "tcp" a = Ok ln ->
       (0 < MaxOpenConnections cfg <->
        fst (listen env addr cfg h) =
        Ok (LimitListener (RawListener ln) (MaxOpenConnections cfg))) /\
       (MaxOpenConnections cfg = 0 ->
        fst (listen env addr cfg h) = Ok (RawListener ln))).
Proof.
  exists (if String.eqb addr "" then ":http" else addr).
  split; [intros ->; reflexivity|].
  split; [intros H; apply String.eqb_neq in H; now rewrite H|].
  split; [apply listen_events|].
  split.
  - intros e H. rewrite (surjective_pairing (listen env addr cfg h)).
    now rewrite listen_events, (listen_fail _ _ _ _ _ H), H.
  - intros ln H. rewrite (listen_ok _ _ _ _ _ H). split.
    + destruct (Z.ltb_spec 0 (MaxOpenConnections cfg)); split; intros H';
        try reflexivity; try lia; discriminate H'.
    + intros ->. reflexivity.
Qed.

(** [listen] on the sample worlds: an empty address and no limit, a taken
    port, and a limit of 100. *)
Lemma listen_contract_witness :
  listen Sample.env_ok "" Sample.cfg_unlimited [] =
    (Ok (RawListener {| ln_network := "tcp"; ln_addr := ":http" |}),
     [EvListen "tcp" ":http" (Ok {| ln_network := "tcp"; ln_addr := ":http" |})]) /\
  listen Sample.env_port_taken "127.0.0.1:8545" Sample.cfg0 [] =
    (Fail (errors_New "address already in use"),
     [EvListen "tcp" "127.0.0.1:8545" (Fail (errors_New "address already in use"))]) /\
  fst (listen Sample.env_ok "127.0.0.1:8545" Sample.cfg0 []) =
    Ok (LimitListener
          (RawListener {| ln_network := "tcp"; ln_addr := "127.0.0.1:8545" |}) 100).
Proof.
  split; [|split].
  - destruct (listen_contract Sample.env_ok "" Sample.cfg_unlimited [])
      as (a & Ha & _ & Hev & _ & Hok).
    specialize (Ha eq_refl). subst a.
    rewrite (surjective_pairing (listen _ _ _ _)), Hev.
    destruct (Hok _ eq_refl) as [_ Hraw]. rewrite (Hraw eq_refl). reflexivity.
  - destruct (listen_contract Sample.env_port_taken "127.0.0.1:8545" Sample.cfg0 [])
      as (a & _ & Ha & _ & Hfail & _).
    specialize (Ha ltac:(discriminate)). subst a.
    apply Hfail. reflexivity.
  - destruct (listen_contract Sample.env_ok "127.0.0.1:8545" Sample.cfg0 [])
      as (a & _ & Ha & _ & _ & Hok).
    specialize (Ha ltac:(discriminate)). subst a.
    apply (Hok _ eq_refl). reflexivity.
Defined.

(** ** The lifecycle closure: what every run satisfies *)

Section LifecycleFacts.

Variable t : Task.

Lemma exec_snoc r ls l :
  exec t r (ls ++ [l]) =
  match exec t r ls with Some r' => step t r' l | None => None end.
Proof.
  revert r. induction ls as [|l0 ls IH]; intros r; cbn.
  - destruct (step t r l); reflexivity.
  - destruct (step t r l0); [apply IH | reflexivity].
Qed.

Lemma reported_snoc ls l :
  reported (ls ++ [l]) = (reported ls ++ reported [l])%list.
Proof. unfold reported. now rewrite flat_map_app. Qed.

Lemma closes_app es es' : closes (es ++ es') = (closes es ++ closes es')%list.
Proof. unfold closes. now rewrite flat_map_app. Qed.

Lemma returns_app es es' : returns (es ++ es') = (returns es ++ returns es')%list.
Proof. unfold returns. now rewrite flat_map_app. Qed.

Lemma existsb_snoc {A} (p : A -> bool) l x :
  existsb p (l ++ [x]) = existsb p l || p x.
Proof. rewrite existsb_app. cbn. now rewrite orb_false_r. Qed.

(** The server has been closed exactly when a close is recorded. *)
Lemma srvClosed_closes r :
  srvClosed r = match closes (r_events r) with [] => false | _ => true end.
Proof.
  unfold srvClosed. induction (r_events r) as [|e es IH]; [reflexivity|].
  destruct e; cbn; try exact IH. reflexivity.
Qed.

(** One transition keeps the invariant. *)
Lemma step_Inv ls r l r' :
  Inv ls r -> step t r l = Some r' -> Inv (ls ++ [l]) r'.
Proof.
  unfold Inv. intros [Hc Hs] Hstep.
  rewrite reported_snoc, existsb_snoc.
  destruct l; cbn in Hstep;
    destruct (r_task r) eqn:Et; destruct (r_serve r) eqn:Es;
    try discriminate Hstep; try contradiction;
    repeat match type of Hstep with
    | (if ?b then _ else _) = _ => destruct b eqn:?; try discriminate Hstep
    end;
    injection Hstep as <-; cbn;
    rewrite ?Et, ?Es, ?closes_app, ?returns_app; cbn;
    rewrite ?app_nil_r, ?orb_false_r, ?orb_true_r;
    intuition (try congruence).
  all: rewrite ?srvClosed_closes;
       repeat match goal with
       | H : r_inflight _ = [] |- _ => rewrite H
       | H : closes _ = _ |- _ => rewrite H
       | H : returns _ = [] |- _ => rewrite H
       | H : reported _ = [] |- _ => rewrite H
       end; reflexivity.
Qed.

(** Every state reached from [init] satisfies it. *)
Lemma exec_Inv ls : forall r, exec t init ls = Some r -> Inv ls r.
Proof.
  induction ls as [|l ls IH] using rev_ind; intros r H.
  - injection H as <-. repeat split.
  - rewrite exec_snoc in H.
    destruct (exec t init ls) as [r0|] eqn:E; [|discriminate H].
    eapply step_Inv; eauto.
Qed.

(** What the closure returns is what its own [return] reported, once. *)
Lemma task_outcome_is_reported ls r out :
  exec t init ls = Some r -> r_task r = TkReturned out ->
  returns (r_events r) = [out].
Proof.
  intros Hexec Et.
  destruct (exec_Inv ls r Hexec) as [_ Hs]. rewrite Et in Hs.
  destruct (r_serve r); try contradiction; decompose [and] Hs; assumption.
Qed.

(** Once the server is closed with nothing in flight, no request finishes
    any more. *)
Lemma closed_server_finishes_nothing ls :
  forall r r',
    r_lnOpen r = false -> r_inflight r = [] ->
    exec t r ls = Some r' ->
    r_finished r' = r_finished r /\ r_dropped r' = r_dropped r.
Proof.
  induction ls as [|l ls IH]; intros r r' Hln Hin Hexec.
  - injection Hexec as <-. auto.
  - cbn in Hexec. destruct (step t r l) as [r1|] eqn:Hstep; [|discriminate Hexec].
    assert (H1 : r_lnOpen r1 = false /\ r_inflight r1 = [] /\
                 r_finished r1 = r_finished r /\ r_dropped r1 = r_dropped r).
    { destruct l; cbn in Hstep;
        destruct (r_task r); destruct (r_serve r); try discriminate Hstep;
        rewrite ?Hln, ?Hin in Hstep; cbn in Hstep; try discriminate Hstep;
        repeat match type of Hstep with
        | (if ?b then _ else _) = _ => destruct b eqn:?; try discriminate Hstep
        end;
        injection Hstep as <-; cbn; rewrite ?Hin, ?Hln, ?app_nil_r;
        try destruct (srvClosed r); try destruct (r_serve r); auto. }
    destruct H1 as (Hln1 & Hin1 & Hf & Hd).
    destruct (IH r1 r' Hln1 Hin1 Hexec) as [-> ->]. auto.
Qed.

End LifecycleFacts.

(** C6.  At any point of any run of the closure:
    - whenever the select takes the [errCh] case, the serve loop has
      returned an error [e], the closure returns exactly [e], and
      [httpSrv.Close()] has not been and is not called;
    - once the serve loop has returned [e] with the context not cancelled,
      no close has been called, the closure is past its entry, and either
      it waits in the select, where the [ctx.Done()] case cannot fire and
      the [errCh] case can, or it has returned, and returned [e]. *)
Theorem serve_error_is_returned t ls r :
  exec t init ls = Some r ->
  (forall r',
     step t r LSelectErr = Some r' ->
     exists e,
       reported ls = [e] /\
       r_task r' = TkReturned e /\
       returns (r_events r') = [e] /\
       closes (r_events r') = []) /\
  (forall e,
     In e (reported ls) ->
     existsb isCancel ls = false ->
     closes (r_events r) = [] /\
     match r_task r with
     | TkEntry => False
     | TkSelect =>
         (forall c, step t r (LSelectDone c) = None) /\
         exists r', step t r LSelectErr = Some r'
     | TkReturned out => out = e /\ returns (r_events r) = [e]
     end).
Proof.
  intros Hexec.
  destruct (exec_Inv t ls r Hexec) as [Hc Hs].
  split.
  - intros r' Hstep. cbn in Hstep.
    destruct (r_task r) eqn:Et; destruct (r_serve r) eqn:Es;
      try discriminate Hstep; decompose [and] Hs; clear Hs.
    injection Hstep as <-. exists e. cbn.
    rewrite returns_app, closes_app. cbn.
    repeat match goal with H : _ = [] |- _ => rewrite H end. auto.
  - intros e Hin Hcancel. rewrite Hcancel in Hc.
    destruct (r_task r) eqn:Et; destruct (r_serve r) eqn:Es;
      try contradiction; decompose [and] Hs; clear Hs;
      try congruence;
      match goal with
      | H : reported ls = _ |- _ => rewrite H in Hin
      end; cbn in Hin; try contradiction; destruct Hin as [<-|[]].
    + split; [assumption|]. split.
      * intros c. cbn. now rewrite Et, Hc.
      * eexists. cbn. rewrite Et, Es. reflexivity.
    + auto.
Qed.

(** A serve loop that fails with "accept: closed" before any cancellation:
    the closure, waiting in the select, can only take the [errCh] case, and
    taking it returns that error with no close. *)
Lemma serve_error_is_returned_witness :
  exec Sample.task0 init Sample.labels_failed = Some Sample.run_failed /\
  closes (r_events Sample.run_failed) = [] /\
  (forall c, step Sample.task0 Sample.run_failed (LSelectDone c) = None) /\
  r_task Sample.run_failed_returned =
    TkReturned (Some (errors_New "accept: closed")) /\
  closes (r_events Sample.run_failed_returned) = [].
Proof.
  split; [reflexivity|].
  destruct (serve_error_is_returned Sample.task0 Sample.labels_failed
              Sample.run_failed eq_refl) as [Hfire Hstate].
  destruct (Hstate (Some (errors_New "accept: closed")) (or_introl eq_refl)
              eq_refl) as (Hclose & Hdone & _).
  destruct (Hfire Sample.run_failed_returned eq_refl)
    as (e & He & Hret & _ & Hnoclose).
  injection He as <-. auto.
Defined.

(** The cancellation branch.  At any point of any run of the closure:
    - the select can take the [ctx.Done()] case only once the context is
      cancelled; taking it calls [httpSrv.Close()], once, which drops every
      open connection (requests in flight are not awaited) and closes the
      listener unless [Serve] has not been given it yet, and the closure
      returns exactly what [Close] returned;
    - once the context is cancelled with nothing reported by the serve
      loop, a closure waiting in the select cannot take the [errCh] case
      and can take the [ctx.Done()] case;
    - a closure that has returned after a close returned the outcome of
      that close, the only one it called. *)
Theorem cancel_first_returns_close t ls r :
  exec t init ls = Some r ->
  (forall c r',
     step t r (LSelectDone c) = Some r' ->
     existsb isCancel ls = true /\
     r_task r' = TkReturned c /\
     closes (r_events r') = [c] /\
     returns (r_events r') = [c] /\
     (r_serve r <> SgStarted -> r_lnOpen r' = false) /\
     r_inflight r' = [] /\
     r_dropped r' = (r_dropped r ++ r_inflight r)%list) /\
  (existsb isCancel ls = true ->
   reported ls = [] ->
   r_task r = TkSelect ->
   step t r LSelectErr = None /\
   forall c, exists r', step t r (LSelectDone c) = Some r') /\
  (forall out,
     r_task r = TkReturned out ->
     closes (r_events r) <> [] ->
     closes (r_events r) = [out] /\ returns (r_events r) = [out]).
Proof.
  intros Hexec.
  destruct (exec_Inv t ls r Hexec) as [Hc Hs].
  split; [|split].
  - intros c r' Hstep. cbn in Hstep.
    destruct (r_task r) eqn:Et; try discriminate Hstep.
    destruct (r_ctxDone r) eqn:Ed; try discriminate Hstep.
    injection Hstep as <-. cbn.
    rewrite returns_app, closes_app. cbn.
    destruct (r_serve r); try contradiction; decompose [and] Hs;
      repeat match goal with H : _ = [] |- _ => rewrite H end;
      repeat split; auto; intros Hne; congruence.
  - intros Hcancel Hrep Et. rewrite Hcancel in Hc. rewrite Et in Hs.
    cbn. rewrite Et, Hc.
    destruct (r_serve r); try contradiction; decompose [and] Hs;
      try congruence; eauto.
  - intros out Et Hclose. rewrite Et in Hs.
    destruct (r_serve r); try contradiction; decompose [and] Hs;
      try congruence; auto.
Qed.

(** The context is cancelled while request 7 is in flight and the serve
    loop has reported nothing: only the [ctx.Done()] case can fire; a close
    that answers [c] makes the closure return [c], and request 7 is
    dropped. *)
Lemma cancel_first_returns_close_witness :
  exec Sample.task0 init Sample.labels_cancelled = Some Sample.run_cancelled /\
  step Sample.task0 Sample.run_cancelled LSelectErr = None /\
  forall c r',
    step Sample.task0 Sample.run_cancelled (LSelectDone c) = Some r' ->
    r_task r' = TkReturned c /\
    closes (r_events r') = [c] /\
    r_lnOpen r' = false /\
    r_dropped r' = [7%nat].
Proof.
  split; [reflexivity|].
  destruct (cancel_first_returns_close Sample.task0 Sample.labels_cancelled
              Sample.run_cancelled eq_refl) as (Hfire & Honly & _).
  split.
  - exact (proj1 (Honly eq_refl eq_refl eq_refl)).
  - intros c r' Hstep.
    destruct (Hfire c r' Hstep) as (_ & Ht & Hcl & _ & Hln & _ & Hdrop).
    repeat split; auto. apply Hln. discriminate.
Defined.

(** C2 fails on the code where a request is in flight when the context is
    cancelled: the closure calls [httpSrv.Close()], which is not the
    graceful stop its own comment asks for.  The closure
    returns nil, request 7 is dropped, and no later run finishes it. *)
Lemma close_drops_request_in_flight :
  exec Sample.task0 init Sample.labels_cancelled = Some Sample.run_cancelled /\
  In 7%nat (r_inflight Sample.run_cancelled) /\
  exists r',
    step Sample.task0 Sample.run_cancelled (LSelectDone None) = Some r' /\
    r_task r' = TkReturned None /\
    ~ graceful_close Sample.run_cancelled r' /\
    forall ls r'', exec Sample.task0 r' ls = Some r'' -> ~ In 7%nat (r_finished r'').
Proof.
  split; [reflexivity|]. split; [cbn; auto|].
  eexists. split; [reflexivity|]. split; [reflexivity|]. split.
  - intros [_ H]. apply (H 7%nat); cbn; auto.
  - intros ls r'' Hexec.
    apply closed_server_finishes_nothing in Hexec; [|reflexivity..].
    destruct Hexec as [-> _]. cbn. auto.
Qed.

(** ** [registerAPIs]: the registration loop, for any list of entries *)

(** For any list of entries, the loop either registers every entry, in
    order, on top of the services already there, with no failed call; or
    it stops at the first entry whose registration fails, logs it and
    yields that entry's error, every call before it having succeeded. *)
Lemma registerAPIs_all_or_error env svrCtx apis :
  forall srv h,
    match fst (registerAPIs env svrCtx srv apis h) with
    | Ok srv' =>
        services srv' =
          (services srv ++ map (fun a => (Namespace a, Svc a)) apis)%list /\
        none failed (snd (registerAPIs env svrCtx srv apis h)) = true
    | Fail e =>
        exists pre a,
          In a apis /\
          snd (registerAPIs env svrCtx srv apis h) =
            (pre ++ [EvRegisterName (Namespace a) (Svc a) (Some e);
                     registerLog svrCtx (Namespace a) (Svc a)])%list /\
          none failed pre = true
    end.
Proof.
  induction apis as [|api rest IH]; intros srv h.
  - cbn. now rewrite app_nil_r.
  - cbn [registerAPIs]. unfold bind at 1.
    unfold RegisterName, call, bind, ret.
    destruct (RegisterName_err env h srv (Namespace api) (Svc api)) as [e|] eqn:E.
    + cbn. exists [], api. auto.
    + cbn.
      specialize (IH {| services := (services srv ++ [(Namespace api, Svc api)])%list |}
                     (h ++ [EvRegisterName (Namespace api) (Svc api) None])%list).
      destruct (registerAPIs env svrCtx _ rest _) as [[srv'|e] es]; cbn in *.
      * destruct IH as [-> ->]. now rewrite <- app_assoc.
      * destruct IH as (pre & a & Hin & -> & Hpre).
        exists (EvRegisterName (Namespace api) (Svc api) None :: pre), a.
        cbn. auto.
Qed.

(** ** [StartJSONRPC]: the four outcomes *)

Lemma StartJSONRPC_outcome env ctx g app svrCtx clientCtx cfg h :
  Outcome ctx g app svrCtx clientCtx cfg
    (fst (ConnectCometWS env "http://127.0.0.1:26657" "/websocket"
            (svr_Logger svrCtx) h))
    (fst (StartJSONRPC env ctx g app svrCtx clientCtx cfg h))
    (snd (StartJSONRPC env ctx g app svrCtx clientCtx cfg h)).
Proof.
  unfold_start. oracle_cases.
  all: try apply NoClient.
  all: try (split_tail 2%nat; apply NotRegistered; reflexivity).
  all: try (split_tail 1%nat; apply NotBound; reflexivity).
  all: split_tail 2%nat; apply Started; try reflexivity.
  all: cbn; match goal with H : (0 <? _) = _ |- _ => now rewrite H end.
Qed.

Lemma snoc2 {A} (pre : list A) (x y : A) :
  (pre ++ [x; y] = (pre ++ [x]) ++ [y])%list.
Proof. now rewrite <- app_assoc. Qed.

Section Start.

Variables (env : Env) (ctx : Context) (g : Group) (app : MinitiaApp)
  (svrCtx : ServerContext) (clientCtx : ClientContext) (cfg : JSONRPCConfig)
  (h : History).

Local Abbreviation conn :=
  (fst (ConnectCometWS env "http://127.0.0.1:26657" "/websocket"
          (svr_Logger svrCtx) h)).
Local Abbreviation res := (fst (StartJSONRPC env ctx g app svrCtx clientCtx cfg h)).
Local Abbreviation evs := (snd (StartJSONRPC env ctx g app svrCtx clientCtx cfg h)).

Lemma outcome : Outcome ctx g app svrCtx clientCtx cfg conn res evs.
Proof. apply StartJSONRPC_outcome. Qed.

(** C7.  Whenever [ConnectCometWS] yields nil, [StartJSONRPC] returns the
    non-nil error "failed to connect comet Websocket Server", and it has
    called neither [RegisterName] nor [net.Listen] nor [g.Go]: nothing is
    registered and no listener is bound. *)
Theorem nil_client_is_fatal :
  conn = None ->
  res = Some (errors_New "failed to connect comet Websocket Server") /\
  none isRegisterName evs = true /\
  none isListen evs = true /\
  none isGo evs = true.
Proof.
  by_outcome outcome; intros H; try discriminate H. repeat split.
Qed.

(** C5.  If the bind fails with [e], [StartJSONRPC] returns [e], the failed
    [net.Listen] is the last thing it did, and it submitted no task to the
    group and started no serve goroutine. *)
Theorem listen_failure_launches_nothing network addr e :
  In (EvListen network addr (Fail e)) evs ->
  res = Some e /\
  none isGo evs = true /\
  none isGoServe evs = true /\
  exists pre, evs = (pre ++ [EvListen network addr (Fail e)])%list.
Proof.
  by_outcome outcome; intros H.
  - destruct H as [H|[H|[]]]; discriminate H.
  - in_tail H.
  - in_tail H. injection H as -> -> ->. repeat split; autorewrite with quiet; eauto.
  - in_tail H.
Qed.

(** C3.  Registration is all or nothing.  If a [RegisterName] call fails
    with [e], [StartJSONRPC] logs it and returns [e]; that call is the last
    registration attempted, no listener is bound and no task (hence no
    dispatcher) is handed to a server.  And whenever a task is submitted,
    the dispatcher its HTTP server routes to holds all three entries, in
    order: a dispatcher with only some of them is never served. *)
Theorem registration_is_atomic :
  (forall ns svc e,
     In (EvRegisterName ns svc (Some e)) evs ->
     res = Some e /\
     none isListen evs = true /\
     none isGo evs = true /\
     exists pre,
       evs = (pre ++ [EvRegisterName ns svc (Some e);
                      registerLog svrCtx ns svc])%list) /\
  (forall t,
     In (EvGo g t) evs ->
     exists ws,
       conn = Some ws /\
       dispatchers (t_httpSrv t) =
       [{| services := registered app svrCtx clientCtx cfg ws |}]).
Proof.
  by_outcome outcome; split.
  - intros ns svc e H. destruct H as [H|[H|[]]]; discriminate H.
  - intros t H. destruct H as [H|[H|[]]]; discriminate H.
  - intros ns svc e H. in_tail H. injection H as -> -> ->.
    repeat split; autorewrite with quiet; eauto.
  - intros t H. in_tail H.
  - intros ns svc e H. in_tail H.
  - intros t H. in_tail H.
  - intros ns svc e H. in_tail H.
  - intros t H. in_tail H. injection H as <-. exists ws0. now rewrite Hsrv.
Qed.

(** C10.  When nothing fails (the client is built and started, the three
    registrations and the bind succeed), [StartJSONRPC] returns nil; the
    last thing it did is the [g.Go] that submits the lifecycle closure, it
    started no serve goroutine itself and reported no closure outcome.
    Whatever the closure later returns, after serving or shutting down, is
    reported by the closure's own return and nowhere else. *)
Theorem start_returns_nil_after_submit :
  none failed evs = true ->
  res = None /\
  returns evs = [] /\
  exists pre t,
    evs = (pre ++ [EvGo g t])%list /\
    none isGo pre = true /\
    none isGoServe evs = true /\
    forall ls r out,
      exec t init ls = Some r -> r_task r = TkReturned out ->
      returns (r_events r) = [out].
Proof.
  by_outcome outcome; intros H.
  - discriminate H.
  - rewrite none_app in H. cbn in H. rewrite andb_false_r in H. discriminate H.
  - rewrite none_app in H. cbn in H. rewrite andb_false_r in H. discriminate H.
  - split; [reflexivity|]. split.
    + rewrite returns_app, (quiet_returns _ Hq). reflexivity.
    + exists (pre0 ++ [EvListen network0 addr0 (Ok ln0)])%list, t0.
      split; [apply snoc2|].
      split; [autorewrite with quiet; reflexivity|].
      split; [autorewrite with quiet; reflexivity|].
      intros ls r out. apply task_outcome_is_reported.
Qed.

(** C4, as the code has it.  [StartJSONRPC] keeps no run state: whatever
    the history before the call, a stopped or failed server included, it
    returns an error only when [ConnectCometWS] gave nil, a [RegisterName]
    call failed or the bind failed, and that error is the fixed connect
    error or the failed call's own; otherwise it returns nil and submits a
    lifecycle closure. *)
Theorem start_keeps_no_run_state :
  match fst (StartJSONRPC env ctx g app svrCtx clientCtx cfg h) with
  | None =>
      exists pre t,
        snd (StartJSONRPC env ctx g app svrCtx clientCtx cfg h) =
        (pre ++ [EvGo g t])%list
  | Some e =>
      (conn = None /\
       e = errors_New "failed to connect comet Websocket Server") \/
      (exists ns svc, In (EvRegisterName ns svc (Some e)) evs) \/
      (exists network addr, In (EvListen network addr (Fail e)) evs)
  end.
Proof.
  by_outcome outcome.
  - left. auto.
  - right. left. exists ns0, svc0. apply in_or_app. right. left. reflexivity.
  - right. right. exists network0, addr0. apply in_or_app. right. left.
    reflexivity.
  - exists (pre0 ++ [EvListen network0 addr0 (Ok ln0)])%list, t0. apply snoc2.
Qed.

(** Every closure [StartJSONRPC] submits carries the caller's context and
    an HTTP server built from the config: its address and timeouts, the
    CORS mode it asks for, and the one route [POST /] to the dispatcher
    holding the three services. *)
Theorem submitted_server_follows_config t :
  In (EvGo g t) evs ->
  t_ctx t = ctx /\
  exists ws,
    conn = Some ws /\
    t_httpSrv t =
    gatewayServer cfg {| services := registered app svrCtx clientCtx cfg ws |}.
Proof.
  by_outcome outcome; intros H.
  - destruct H as [H|[H|[]]]; discriminate H.
  - in_tail H.
  - in_tail H.
  - in_tail H. injection H as <-. eauto.
Qed.

End Start.

(** C9.  For every world, config and history, the first thing
    [StartJSONRPC] does is the one [NewWS] call of the run, to
    "http://127.0.0.1:26657" with path "/websocket", with options that fix,
    over any defaults, 256 reconnect attempts, read and write waits of
    zero and a ping period of 50 seconds. *)
Theorem upstream_endpoint_is_fixed env ctx g app svrCtx clientCtx cfg h :
  exists opts r rest,
    snd (StartJSONRPC env ctx g app svrCtx clientCtx cfg h) =
      EvNewWS "http://127.0.0.1:26657" "/websocket" opts r :: rest /\
    none isNewWS rest = true /\
    fixes opts 256 0 0 (50 * time_Second).
Proof.
  unfold_start. oracle_cases.
  all: do 3 eexists; split; [reflexivity|]; split; [reflexivity|].
  all: intros d; repeat split.
Qed.

(** C1 fails on the code where the client is built and its [OnStart]
    fails: the failure is logged, the client is used all the same, and
    [StartJSONRPC] registers, binds, submits the closure and returns nil. *)
Theorem OnStart_failure_is_not_returned :
  existsb (fun e => isOnStart e && failed e)
    (snd (Sample.start Sample.env_comet_down Sample.cfg0 [])) = true /\
  In (EvLog [] Error "Comet WS client could not start"
        [("address", LStr "http://127.0.0.1:26657/websocket");
         ("error", LErr (Some (errors_New "connection refused")))])
     (snd (Sample.start Sample.env_comet_down Sample.cfg0 [])) /\
  existsb isGo (snd (Sample.start Sample.env_comet_down Sample.cfg0 [])) = true /\
  fst (Sample.start Sample.env_comet_down Sample.cfg0 []) = None.
Proof.
  split; [reflexivity|]. split; [|split; reflexivity].
  cbn. right. right. left. reflexivity.
Qed.

(** C4, as stated, fails: after the first server stopped on cancellation,
    and after one ended on a serve failure, a second [StartJSONRPC] is not
    rejected; it returns nil and submits a new closure. *)
Lemma restart_is_not_rejected :
  r_task Sample.run_stopped = TkReturned None /\
  fst (Sample.start Sample.env_ok Sample.cfg0 Sample.history_after_stop) = None /\
  existsb isGo
    (snd (Sample.start Sample.env_ok Sample.cfg0 Sample.history_after_stop)) = true /\
  r_task Sample.run_failed_returned =
    TkReturned (Some (errors_New "accept: closed")) /\
  fst (Sample.start Sample.env_ok Sample.cfg0 Sample.history_after_failure) = None /\
  existsb isGo
    (snd (Sample.start Sample.env_ok Sample.cfg0 Sample.history_after_failure)) = true.
Proof. repeat split. Qed.

(** ** The theorems at the sample worlds *)

Lemma nil_client_is_fatal_witness :
  fst (ConnectCometWS Sample.env_bad_endpoint "http://127.0.0.1:26657"
         "/websocket" [] []) = None /\
  fst (Sample.start Sample.env_bad_endpoint Sample.cfg0 []) =
    Some (errors_New "failed to connect comet Websocket Server") /\
  none isRegisterName (snd (Sample.start Sample.env_bad_endpoint Sample.cfg0 [])) = true /\
  none isListen (snd (Sample.start Sample.env_bad_endpoint Sample.cfg0 [])) = true /\
  none isGo (snd (Sample.start Sample.env_bad_endpoint Sample.cfg0 [])) = true.
Proof.
  split; [reflexivity|].
  exact (nil_client_is_fatal Sample.env_bad_endpoint Sample.ctx0 Sample.g0
           Sample.app0 Sample.svrCtx0 Sample.clientCtx0 Sample.cfg0 [] eq_refl).
Defined.

Lemma listen_failure_launches_nothing_witness :
  fst (Sample.start Sample.env_port_taken Sample.cfg0 []) =
    Some (errors_New "address already in use") /\
  none isGo (snd (Sample.start Sample.env_port_taken Sample.cfg0 [])) = true /\
  none isGoServe (snd (Sample.start Sample.env_port_taken Sample.cfg0 [])) = true /\
  exists pre,
    snd (Sample.start Sample.env_port_taken Sample.cfg0 []) =
    (pre ++ [EvListen "tcp" "127.0.0.1:8545"
               (Fail (errors_New "address already in use"))])%list.
Proof.
  apply (listen_failure_launches_nothing Sample.env_port_taken Sample.ctx0
           Sample.g0 Sample.app0 Sample.svrCtx0 Sample.clientCtx0 Sample.cfg0 []).
  cbn. do 6 right. left. reflexivity.
Defined.

Lemma registration_is_atomic_witness :
  fst (Sample.start Sample.env_bad_service Sample.cfg0 []) =
    Some (errors_New "no suitable methods") /\
  none isListen (snd (Sample.start Sample.env_bad_service Sample.cfg0 [])) = true /\
  none isGo (snd (Sample.start Sample.env_bad_service Sample.cfg0 [])) = true.
Proof.
  destruct (registration_is_atomic Sample.env_bad_service Sample.ctx0
              Sample.g0 Sample.app0 Sample.svrCtx0 Sample.clientCtx0
              Sample.cfg0 []) as [Hfail _].
  destruct (Hfail EthNamespace
              (NewFilterAPI [] (NewJSONRPCBackend Sample.app0 Sample.svrCtx0
                                  Sample.clientCtx0 Sample.cfg0)
                 Sample.clientCtx0
                 {| ws_remote := "http://127.0.0.1:26657";
                    ws_endpoint := "/websocket";
                    ws_policy :=
                      {| maxReconnectAttempts := 256; readWait := 0;
                         writeWait := 0; pingPeriod := 50000000000;
                         onReconnect :=
                           Some {| lc_logger := []; lc_level := Debug;
                                   lc_msg := "EVM RPC reconnects to Comet WS";
                                   lc_address :=
                                     "http://127.0.0.1:26657/websocket" |} |} |})
              (errors_New "no suitable methods"))
    as (Hres & Hln & Hgo & _).
  - cbn. do 4 right. left. reflexivity.
  - auto.
Defined.

Lemma start_returns_nil_after_submit_witness :
  none failed (snd (Sample.start Sample.env_ok Sample.cfg0 [])) = true /\
  fst (Sample.start Sample.env_ok Sample.cfg0 []) = None /\
  returns (snd (Sample.start Sample.env_ok Sample.cfg0 [])) = [].
Proof.
  split; [reflexivity|].
  destruct (start_returns_nil_after_submit Sample.env_ok Sample.ctx0
              Sample.g0 Sample.app0 Sample.svrCtx0 Sample.clientCtx0
              Sample.cfg0 [] eq_refl) as (Hres & Hret & _).
  auto.
Defined.

Lemma submitted_server_follows_config_witness :
  t_ctx Sample.task0 = Sample.ctx0 /\
  Addr (t_httpSrv Sample.task0) = "127.0.0.1:8545" /\
  h_cors (SrvHandler (t_httpSrv Sample.task0)) = cors_Default /\
  map route_methods (h_router (SrvHandler (t_httpSrv Sample.task0))) = [["POST"]].
Proof.
  destruct (submitted_server_follows_config Sample.env_ok Sample.ctx0
              Sample.g0 Sample.app0 Sample.svrCtx0 Sample.clientCtx0
              Sample.cfg0 [] Sample.task0) as (Hctx & ws & _ & Hsrv).
  - cbn. do 7 right. left. reflexivity.
  - rewrite Hsrv. auto.
Defined.

(** ** Further properties of the code *)

(** After the closure has called [httpSrv.Close()], nobody receives from
    [errCh] any more: the serve goroutine never gets past its send, and the
    select's [errCh] case is gone. *)
Theorem serve_goroutine_blocks_after_close t ls r :
  exec t init ls = Some r ->
  closes (r_events r) <> [] ->
  r_serve r <> SgExited /\ step t r LSelectErr = None.
Proof.
  intros Hexec Hclose.
  destruct (exec_Inv t ls r Hexec) as [_ Hs].
  destruct (r_task r) eqn:Et; destruct (r_serve r) eqn:Es;
    try contradiction; decompose [and] Hs; clear Hs; try congruence;
    (split; [discriminate | cbn; now rewrite Et]).
Qed.

Lemma serve_goroutine_blocks_after_close_witness :
  exec Sample.task0 init
    (Sample.labels_stopped ++ [LServeReturn (Some (errors_New "http: Server closed"))]) <> None /\
  forall r,
    exec Sample.task0 init
      (Sample.labels_stopped ++ [LServeReturn (Some (errors_New "http: Server closed"))]) =
    Some r ->
    r_serve r <> SgExited /\ step Sample.task0 r LSelectErr = None.
Proof.
  split; [discriminate|].
  intros r H.
  apply (serve_goroutine_blocks_after_close Sample.task0 _ r H).
  injection H as <-. discriminate.
Defined.

(** Both ways [ConnectCometWS] can fail are logged at error level with the
    endpoint and the cause; after a failed [OnStart] it still returns the
    client, and it returns nil exactly when [NewWS] failed. *)
Theorem connect_failures_are_logged env addr ep lg h :
  (forall opts e,
     In (EvNewWS addr ep opts (Fail e)) (snd (ConnectCometWS env addr ep lg h)) ->
     In (EvLog lg Error "Comet WS client could not be created"
           [("address", LStr (addr ++ ep)); ("error", LErr (Some e))])
        (snd (ConnectCometWS env addr ep lg h)) /\
     fst (ConnectCometWS env addr ep lg h) = None) /\
  (forall c e,
     In (EvOnStart c (Some e)) (snd (ConnectCometWS env addr ep lg h)) ->
     In (EvLog lg Error "Comet WS client could not start"
           [("address", LStr (addr ++ ep)); ("error", LErr (Some e))])
        (snd (ConnectCometWS env addr ep lg h)) /\
     fst (ConnectCometWS env addr ep lg h) = Some c) /\
  (fst (ConnectCometWS env addr ep lg h) = None ->
   existsb (fun e => isNewWS e && failed e)
     (snd (ConnectCometWS env addr ep lg h)) = true).
Proof.
  unfold ConnectCometWS, rpcclient_NewWS, WSClient_OnStart, call, bind, ret,
    emit, log.
  destruct (NewWS_err env h addr ep _) as [e0|] eqn:E0; cbn.
  - split; [|split].
    + intros opts e [H|[H|[]]]; [injection H as <- <-; auto | discriminate H].
    + intros c e [H|[H|[]]]; discriminate H.
    + reflexivity.
  - destruct (OnStart_err env _ _) as [e1|] eqn:E1; cbn.
    + split; [|split].
      * intros opts e [H|[H|[H|[]]]]; discriminate H.
      * intros c e [H|[H|[H|[]]]]; try discriminate H.
        injection H as <- <-. auto.
      * discriminate.
    + split; [|split].
      * intros opts e [H|[H|[]]]; discriminate H.
      * intros c e [H|[H|[]]]; discriminate H.
      * discriminate.
Qed.

(** ** More on [ConnectCometWS] and [listen] *)

(** Whatever address, path, logger and world, a client [ConnectCometWS]
    hands back is the one built for that address and path, with 256
    reconnect attempts, no read or write wait and a 50 second ping, so the
    rule of the source's comment holds (a non-zero read wait would have to
    exceed the ping period); on reconnect it logs, at debug level under
    the caller's logger, the address followed by the path. *)
Theorem connected_client_policy env addr ep lg h c :
  fst (ConnectCometWS env addr ep lg h) = Some c ->
  ws_remote c = addr /\
  ws_endpoint c = ep /\
  maxReconnectAttempts (ws_policy c) = 256 /\
  readWait (ws_policy c) = 0 /\
  writeWait (ws_policy c) = 0 /\
  pingPeriod (ws_policy c) = 50 * time_Second /\
  (readWait (ws_policy c) = 0 \/ pingPeriod (ws_policy c) < readWait (ws_policy c)) /\
  onReconnect (ws_policy c) =
    Some {| lc_logger := lg; lc_level := Debug;
            lc_msg := "EVM RPC reconnects to Comet WS";
            lc_address := addr ++ ep |} /\
  exists r, starts (snd (ConnectCometWS env addr ep lg h)) = [(c, r)].
Proof.
  unfold ConnectCometWS, rpcclient_NewWS, WSClient_OnStart, call, bind, ret,
    emit, log.
  destruct (NewWS_err env h addr ep _) as [e0|] eqn:E0; cbn; [discriminate|].
  destruct (OnStart_err env _ _) as [e1|] eqn:E1; cbn;
    intros H; injection H as <-; cbn; repeat split; eauto.
Qed.

(** The comet node is down: the client comes back all the same, built for
    the address and path asked, and it was started once. *)
Lemma connected_client_policy_witness :
  exists c,
    fst (ConnectCometWS Sample.env_comet_down "tcp://node:1" "/ws" [] []) = Some c /\
    ws_remote c = "tcp://node:1" /\
    ws_endpoint c = "/ws" /\
    maxReconnectAttempts (ws_policy c) = 256 /\
    pingPeriod (ws_policy c) = 50000000000.
Proof.
  eexists. split; [reflexivity|].
  destruct (connected_client_policy Sample.env_comet_down "tcp://node:1" "/ws"
              [] [] _ eq_refl) as (Hr & He & Hm & _ & _ & Hp & _).
  auto.
Defined.

(** For a cap that is zero or negative, [listen] hands back the raw
    listener: a [LimitListener] never carries a cap below one, and never
    wraps another [LimitListener]. *)
Theorem listen_limit_is_positive env addr cfg h :
  match fst (listen env addr cfg h) with
  | Fail e => net_Listen env h "tcp" (boundAddr addr) = Fail e
  | Ok l =>
      exists ln,
        net_Listen env h "tcp" (boundAddr addr) = Ok ln /\
        ((MaxOpenConnections cfg <= 0 /\ l = RawListener ln) \/
         (1 <= MaxOpenConnections cfg /\
          l = LimitListener (RawListener ln) (MaxOpenConnections cfg)))
  end.
Proof.
  unfold listen, net_Listen_call, call, bind, ret, boundAddr.
  destruct (net_Listen env h "tcp" _) as [ln|e] eqn:E; [|reflexivity].
  destruct (Z.ltb_spec 0 (MaxOpenConnections cfg)); cbn;
    exists ln; (split; [reflexivity|]); [right | left];
    (split; [lia | reflexivity]).
Qed.

(** ** More on [StartJSONRPC]: the calls it makes, in order *)

Section Calls.

Variables (env : Env) (ctx : Context) (g : Group) (app : MinitiaApp)
  (svrCtx : ServerContext) (clientCtx : ClientContext) (cfg : JSONRPCConfig)
  (h : History).

(** The services are registered in the order eth (core), eth (filters,
    built around the very client [ConnectCometWS] returned), net; the loop
    stops at the first refusal, whose error is the result; and a bind is
    attempted, once, on tcp at the configured address (":http" when it is
    empty), only after all three were accepted. *)
Theorem registrations_then_bind :
  match fst (ConnectCometWS env "http://127.0.0.1:26657" "/websocket"
               (svr_Logger svrCtx) h) with
  | None =>
      registrations (snd (StartJSONRPC env ctx g app svrCtx clientCtx cfg h)) = [] /\
      binds (snd (StartJSONRPC env ctx g app svrCtx clientCtx cfg h)) = []
  | Some ws =>
      (registrations (snd (StartJSONRPC env ctx g app svrCtx clientCtx cfg h)) =
         map succeeded (registered app svrCtx clientCtx cfg ws) /\
       exists r,
         binds (snd (StartJSONRPC env ctx g app svrCtx clientCtx cfg h)) =
           [("tcp", boundAddr (Address cfg), r)]) \/
      (exists k e,
         (k < 3)%nat /\
         registrations (snd (StartJSONRPC env ctx g app svrCtx clientCtx cfg h)) =
           (map succeeded (firstn k (registered app svrCtx clientCtx cfg ws)) ++
            map (refused e)
              (firstn 1 (skipn k (registered app svrCtx clientCtx cfg ws))))%list /\
         fst (StartJSONRPC env ctx g app svrCtx clientCtx cfg h) = Some e /\
         binds (snd (StartJSONRPC env ctx g app svrCtx clientCtx cfg h)) = [])
  end.
Proof.
  unfold_start. oracle_cases.
  all: first
    [ split; reflexivity
    | left; split; [reflexivity | eexists; reflexivity]
    | right; exists 0%nat; eexists; repeat split; (reflexivity || lia)
    | right; exists 1%nat; eexists; repeat split; (reflexivity || lia)
    | right; exists 2%nat; eexists; repeat split; (reflexivity || lia) ].
Qed.

(** On every path past the nil check, the failing ones included, the
    client has been started exactly once and the process-wide geth logger
    replaced exactly once, by the caller's logger tagged module=geth; when
    [ConnectCometWS] gave nil, neither happened. *)
Theorem client_started_before_anything_fails :
  match fst (ConnectCometWS env "http://127.0.0.1:26657" "/websocket"
               (svr_Logger svrCtx) h) with
  | None =>
      starts (snd (StartJSONRPC env ctx g app svrCtx clientCtx cfg h)) = [] /\
      defaultLoggers (snd (StartJSONRPC env ctx g app svrCtx clientCtx cfg h)) = []
  | Some ws =>
      (exists r,
         starts (snd (StartJSONRPC env ctx g app svrCtx clientCtx cfg h)) =
           [(ws, r)]) /\
      defaultLoggers (snd (StartJSONRPC env ctx g app svrCtx clientCtx cfg h)) =
        [Logger_With (svr_Logger svrCtx) "module" "geth"]
  end.
Proof.
  unfold_start. oracle_cases.
  all: split; try reflexivity; eexists; reflexivity.
Qed.

(** A successful start binds once and launches once: the closure serves
    the very listener that was bound, limited to the configured cap when
    that is positive, and logs under the caller's logger and its geth
    child with the configured address.  A failed start launches
    nothing. *)
Theorem closure_serves_bound_listener :
  match fst (StartJSONRPC env ctx g app svrCtx clientCtx cfg h) with
  | None =>
      exists ln t,
        binds (snd (StartJSONRPC env ctx g app svrCtx clientCtx cfg h)) =
          [("tcp", boundAddr (Address cfg), Ok ln)] /\
        launches (snd (StartJSONRPC env ctx g app svrCtx clientCtx cfg h)) =
          [(g, t)] /\
        t_ln t = served cfg ln /\
        t_address t = Address cfg /\
        t_svrLogger t = svr_Logger svrCtx /\
        t_logger t = Logger_With (svr_Logger svrCtx) "module" "geth"
  | Some _ =>
      launches (snd (StartJSONRPC env ctx g app svrCtx clientCtx cfg h)) = []
  end.
Proof.
  unfold_start. unfold served. oracle_cases.
  all: try reflexivity.
  all: do 2 eexists; repeat split;
    cbn; match goal with H : (0 <? _) = _ |- _ => now rewrite H end.
Qed.

End Calls.

(** ** More on the lifecycle closure *)

Section ClosureFacts.

Variable t : Task.

Lemma goServes_app es es' :
  goServes (es ++ es') = (goServes es ++ goServes es')%list.
Proof. unfold goServes. now rewrite flat_map_app. Qed.

Lemma logged_app lvl msg es es' :
  logged lvl msg (es ++ es') = (logged lvl msg es ++ logged lvl msg es')%list.
Proof. unfold logged. now rewrite flat_map_app. Qed.

(** One transition from a state that satisfies [Inv] keeps [Recorded]. *)
Lemma step_Recorded ls r l r' :
  Inv ls r -> Recorded t r -> step t r l = Some r' -> Recorded t r'.
Proof.
  unfold Inv, Recorded. intros [_ Hs] (Hg & Hstart & Hstop & Hfail & Hsv & Htk) Hstep.
  destruct l; cbn in Hstep;
    destruct (r_task r) eqn:Et; destruct (r_serve r) eqn:Es;
    try discriminate Hstep; try contradiction;
    repeat match type of Hstep with
    | (if ?b then _ else _) = _ => destruct b eqn:?; try discriminate Hstep
    end;
    injection Hstep as <-;
    cbn [r_events r_task r_serve r_lnOpen r_inflight r_finished r_dropped
         r_ctxDone add_events set_task set_serve set_conns set_ctxDone
         http_Close];
    rewrite ?Et, ?Es, ?goServes_app, ?logged_app, ?closes_app, ?returns_app,
      ?map_app; cbn;
    rewrite ?Hg, ?Hstart, ?Hstop, ?Hfail, ?app_nil_r, ?srvClosed_closes;
    decompose [and] Hs; clear Hs;
    repeat match goal with
    | H : closes _ = _ |- _ => rewrite H
    | H : returns _ = _ |- _ => rewrite H
    end;
    cbn; repeat split; auto; congruence.
Qed.

(** Every state reached from [init] satisfies [Recorded]. *)
Lemma exec_Recorded ls : forall r, exec t init ls = Some r -> Recorded t r.
Proof.
  induction ls as [|l ls IH] using rev_ind; intros r H.
  - injection H as <-. repeat split.
  - rewrite exec_snoc in H.
    destruct (exec t init ls) as [r0|] eqn:E; [|discriminate H].
    eapply step_Recorded; eauto using exec_Inv.
Qed.

End ClosureFacts.

(** The select blocks exactly while neither signal has arrived, and the
    closure returns only after one: while the context is not cancelled and
    the serve loop has reported nothing, no case of the select can fire;
    once either has happened, one can.  A closure that has returned did so
    either after a cancellation, with its one close and the serve
    goroutine still short of handing over its value, or with the serve
    loop's error, no close, and the serve goroutine gone. *)
Theorem closure_returns_only_on_signal t ls r :
  exec t init ls = Some r ->
  (r_task r = TkSelect ->
   (existsb isCancel ls = false /\ reported ls = [] ->
    (forall c, step t r (LSelectDone c) = None) /\
    step t r LSelectErr = None) /\
   (existsb isCancel ls = true \/ reported ls <> [] ->
    (forall c, step t r (LSelectDone c) <> None) \/
    step t r LSelectErr <> None)) /\
  (forall out,
     r_task r = TkReturned out ->
     (existsb isCancel ls = true /\ closes (r_events r) = [out] /\
      r_serve r <> SgExited) \/
     (reported ls = [out] /\ closes (r_events r) = [] /\
      r_serve r = SgExited)).
Proof.
  intros Hexec.
  destruct (exec_Inv t ls r Hexec) as [Hc Hs].
  split.
  - intros Et. rewrite Et in Hs. split.
    + intros [Hcancel Hrep]. rewrite Hcancel in Hc. cbn. rewrite Et, Hc.
      split; [reflexivity|].
      destruct (r_serve r); try contradiction; decompose [and] Hs;
        try reflexivity; congruence.
    + intros [Hcancel|Hrep].
      * left. intros c. cbn. rewrite Et, Hc, Hcancel. discriminate.
      * right. cbn. rewrite Et.
        destruct (r_serve r); try contradiction; decompose [and] Hs;
          try congruence; discriminate.
  - intros out Et. rewrite Et in Hs.
    destruct (r_serve r) eqn:Es; try contradiction; decompose [and] Hs;
      try (left; repeat split; congruence).
    right. auto.
Qed.

Lemma closure_returns_only_on_signal_witness :
  exec Sample.task0 init [LGo; LServeStart] <> None /\
  (forall r,
     exec Sample.task0 init [LGo; LServeStart] = Some r ->
     (forall c, step Sample.task0 r (LSelectDone c) = None) /\
     step Sample.task0 r LSelectErr = None) /\
  exec Sample.task0 init Sample.labels_stopped = Some Sample.run_stopped /\
  closes (r_events Sample.run_stopped) = [None].
Proof.
  split; [discriminate|]. split.
  - intros r H.
    destruct (closure_returns_only_on_signal Sample.task0 _ r H) as [Hsel _].
    injection H as <-. apply (Hsel eq_refl). split; reflexivity.
  - split; [reflexivity|].
    destruct (closure_returns_only_on_signal Sample.task0
                Sample.labels_stopped Sample.run_stopped eq_refl) as [_ Hret].
    destruct (Hret None eq_refl) as [(_ & H & _)|(H & _)];
      [exact H | discriminate H].
Defined.

(** Along any run the closure starts its serve goroutine once, on leaving
    its entry and so before it can return, even when the context was
    cancelled before it started; the serve loop returns at most once;
    [httpSrv.Close()] is called at most once; the closure returns at most
    once; and a close outcome is always the returned value. *)
Theorem closure_acts_at_most_once t ls r :
  exec t init ls = Some r ->
  (r_task r = TkEntry -> goServes (r_events r) = []) /\
  (r_task r <> TkEntry -> goServes (r_events r) = [t]) /\
  (length (reported ls) <= 1)%nat /\
  (length (closes (r_events r)) <= 1)%nat /\
  (length (returns (r_events r)) <= 1)%nat /\
  (forall c, In c (closes (r_events r)) -> returns (r_events r) = [c]).
Proof.
  intros Hexec.
  destruct (exec_Inv t ls r Hexec) as [_ Hs].
  destruct (exec_Recorded t ls r Hexec) as (Hg & _).
  split; [intros Et; now rewrite Et in Hg|].
  split; [intros Et; destruct (r_task r); congruence|].
  destruct (r_task r); destruct (r_serve r); try contradiction;
    decompose [and] Hs;
    repeat match goal with
    | H : reported _ = _ |- _ => rewrite H
    | H : closes _ = _ |- _ => rewrite H
    | H : returns _ = _ |- _ => rewrite H
    end; cbn; repeat split; auto;
    intros c Hin; try contradiction; destruct Hin as [<-|[]]; reflexivity.
Qed.

Lemma closure_acts_at_most_once_witness :
  exec Sample.task0 init (LCancel :: Sample.labels_failed ++ [LSelectDone None]) <> None /\
  forall r,
    exec Sample.task0 init (LCancel :: Sample.labels_failed ++ [LSelectDone None]) =
      Some r ->
    goServes (r_events r) = [Sample.task0] /\
    (length (closes (r_events r)) <= 1)%nat.
Proof.
  split; [discriminate|].
  intros r H.
  destruct (closure_acts_at_most_once Sample.task0 _ r H)
    as (_ & Hg & _ & Hc & _).
  split; [apply Hg; injection H as <-; discriminate | exact Hc].
Defined.

(** Once the closure has returned, by either path, the server accepts no
    further connection.  The listener is closed by then, except when the
    cancellation won before the serve goroutine had given the listener to
    [Serve]: [Close] has left it open, and it stays open until the
    goroutine calls [Serve], which closes it and accepts nothing. *)
Theorem listener_closed_after_return t ls r out :
  exec t init ls = Some r ->
  r_task r = TkReturned out ->
  (forall c, step t r (LAccept c) = None) /\
  (r_serve r <> SgStarted -> r_lnOpen r = false) /\
  (r_serve r = SgStarted ->
   r_lnOpen r = true /\
   exists r',
     step t r LServeStart = Some r' /\
     r_lnOpen r' = false /\
     forall c, step t r' (LAccept c) = None).
Proof.
  intros Hexec Et.
  destruct (exec_Inv t ls r Hexec) as [_ Hs].
  destruct (exec_Recorded t ls r Hexec) as (_ & _ & _ & _ & Hsv & Htk).
  rewrite Et in Hs, Htk.
  split; [|split].
  - intros c. cbn. destruct (r_serve r); try reflexivity. now rewrite Htk.
  - intros Hne. destruct (r_serve r); try contradiction; congruence.
  - intros Es. rewrite Es in Hs, Hsv. split; [exact Hsv|].
    decompose [and] Hs.
    eexists. cbn. rewrite Es. split; [reflexivity|]. cbn.
    rewrite srvClosed_closes.
    match goal with H : closes _ = _ |- _ => rewrite H end. auto.
Qed.

(** A stop while serving and a serve failure leave the listener closed; a
    cancellation that wins before [Serve] is called leaves it open until
    the goroutine calls [Serve]. *)
Lemma listener_closed_after_return_witness :
  exec Sample.task0 init (Sample.labels_failed ++ [LSelectErr]) =
    Some Sample.run_failed_returned /\
  r_lnOpen Sample.run_failed_returned = false /\
  r_lnOpen Sample.run_stopped = false /\
  exec Sample.task0 init Sample.labels_unserved = Some Sample.run_unserved /\
  r_lnOpen Sample.run_unserved = true /\
  (forall c, step Sample.task0 Sample.run_unserved (LAccept c) = None) /\
  exists r',
    step Sample.task0 Sample.run_unserved LServeStart = Some r' /\
    r_lnOpen r' = false.
Proof.
  split; [reflexivity|].
  destruct (listener_closed_after_return Sample.task0
              (Sample.labels_failed ++ [LSelectErr])
              Sample.run_failed_returned _ eq_refl eq_refl) as (_ & Hf & _).
  destruct (listener_closed_after_return Sample.task0
              Sample.labels_stopped Sample.run_stopped _ eq_refl eq_refl)
    as (_ & Hs & _).
  destruct (listener_closed_after_return Sample.task0
              Sample.labels_unserved Sample.run_unserved _ eq_refl eq_refl)
    as (Hacc & _ & Hu).
  destruct (Hu eq_refl) as (Hopen & r' & Hstep & Hclosed & _).
  split; [apply Hf; discriminate|].
  split; [apply Hs; discriminate|].
  split; [reflexivity|].
  split; [exact Hopen|].
  split; [exact Hacc|].
  exists r'. auto.
Defined.



(** From any state in which the closure has returned, whatever happens
    next (a late cancellation, the serve loop returning, requests
    finishing), the returned value stands and no further close or return is
    recorded. *)
Theorem returned_stays_returned t ls :
  forall r r' out,
    r_task r = TkReturned out ->
    exec t r ls = Some r' ->
    r_task r' = TkReturned out /\
    closes (r_events r') = closes (r_events r) /\
    returns (r_events r') = returns (r_events r).
Proof.
  induction ls as [|l ls IH]; intros r r' out Et Hexec.
  - injection Hexec as <-. auto.
  - cbn in Hexec. destruct (step t r l) as [r1|] eqn:Hstep; [|discriminate Hexec].
    assert (H1 : r_task r1 = TkReturned out /\
                 closes (r_events r1) = closes (r_events r) /\
                 returns (r_events r1) = returns (r_events r)).
    { destruct l; cbn in Hstep; rewrite ?Et in Hstep;
        try discriminate Hstep;
        destruct (r_serve r); try discriminate Hstep;
        repeat match type of Hstep with
        | (if ?b then _ else _) = _ => destruct b eqn:?; try discriminate Hstep
        end;
        injection Hstep as <-;
        cbn [r_events r_task r_serve r_lnOpen r_inflight r_finished r_dropped
             r_ctxDone add_events set_task set_serve set_conns set_ctxDone];
        rewrite ?closes_app, ?returns_app; cbn; rewrite ?app_nil_r; auto. }
    destruct H1 as (Et1 & Hc1 & Hr1).
    destruct (IH r1 r' out Et1 Hexec) as (-> & -> & ->). auto.
Qed.

Lemma returned_stays_returned_witness :
  exec Sample.task0 Sample.run_stopped
    [LServeReturn (Some (errors_New "http: Server closed"))] <> None /\
  forall r',
    exec Sample.task0 Sample.run_stopped
      [LServeReturn (Some (errors_New "http: Server closed"))] = Some r' ->
    r_task r' = TkReturned None /\ closes (r_events r') = [None].
Proof.
  split.
  - cbn. discriminate.
  - intros r' H.
    destruct (returned_stays_returned Sample.task0 _ Sample.run_stopped r' None
                eq_refl H) as (Ht & Hc & _).
    split; [exact Ht | rewrite Hc; reflexivity].
Defined.
